(** * Lagos ferry assistant: scoping, ranking and rendering logic

    A shallow embedding of the pure logic of the two chat components
    (the baseline one, [Baseline], and the location-aware one,
    [LocationAware]) together with the theorems that relate it to the
    written specification.

    Conventions of the embedding.
    - A JavaScript string is a Rocq [string].  The character-level
      operations ([toLowerCase], [toUpperCase], the [\s] class, [trim]) are
      the ECMAScript ones on the ASCII range; a byte above 127 stands for
      a piece of the UTF-8 form of a non-ASCII character and is left alone
      by them.
    - A JavaScript number is a binary64 [float]; the three
      implementation-approximated functions [Math.sin], [Math.cos] and
      [Math.atan2] are section variables.
    - JSON data whose static type is [any] is a [JValue]; the GeoJSON
      features follow the interfaces the map screen declares
      ([JettyFeature], [RouteFeature]). *)

From Stdlib Require Import String Ascii List ZArith Bool Arith Lia.
From Stdlib Require Import Floats Permutation Sorted.
Import ListNotations.

Local Open Scope string_scope.
Local Open Scope list_scope.
Local Open Scope nat_scope.

(* ------------------------------------------------------------------ *)
(** ** Strings *)

Module JsString.

Definition isUpperAZ (c : ascii) : bool :=
  let n := nat_of_ascii c in (65 <=? n) && (n <=? 90).

Definition isLowerAZ (c : ascii) : bool :=
  let n := nat_of_ascii c in (97 <=? n) && (n <=? 122).

Definition isDigit (c : ascii) : bool :=
  let n := nat_of_ascii c in (48 <=? n) && (n <=? 57).

(** The class [\s] (also the characters [trim] removes), ASCII range:
    TAB, LF, VT, FF, CR and SPACE. *)
Definition isWhiteSpace (c : ascii) : bool :=
  let n := nat_of_ascii c in ((9 <=? n) && (n <=? 13)) || (n =? 32).

Definition charToLower (c : ascii) : ascii :=
  if isUpperAZ c then ascii_of_nat (nat_of_ascii c + 32) else c.

Definition charToUpper (c : ascii) : ascii :=
  if isLowerAZ c then ascii_of_nat (nat_of_ascii c - 32) else c.

Fixpoint mapChars (f : ascii -> ascii) (s : string) : string :=
  match s with
  | EmptyString => EmptyString
  | String c r => String (f c) (mapChars f r)
  end.

(** [String.prototype.toLowerCase] *)
Definition toLowerCase (s : string) : string := mapChars charToLower s.

(** [String.prototype.toUpperCase] *)
Definition toUpperCase (s : string) : string := mapChars charToUpper s.

Fixpoint filterChars (p : ascii -> bool) (s : string) : string :=
  match s with
  | EmptyString => EmptyString
  | String c r => if p c then String c (filterChars p r) else filterChars p r
  end.

Fixpoint allChars (p : ascii -> bool) (s : string) : bool :=
  match s with
  | EmptyString => true
  | String c r => p c && allChars p r
  end.

Definition noWhiteSpace (s : string) : bool :=
  allChars (fun c => negb (isWhiteSpace c)) s.

(** The class [[a-z0-9]] *)
Definition isLowerAlnum (c : ascii) : bool := isLowerAZ c || isDigit c.

Definition startsWithWhiteSpace (s : string) : bool :=
  match s with
  | EmptyString => false
  | String c _ => isWhiteSpace c
  end.

(** [s.split(/\s+/)]: the pieces between maximal runs of white space.  A
    leading or trailing run leaves an empty first or last piece, and the
    empty string splits into one empty piece. *)
Fixpoint split_ws (s : string) : list string :=
  match s with
  | EmptyString => [EmptyString]
  | String c r =>
      if isWhiteSpace c then
        if startsWithWhiteSpace r then split_ws r else EmptyString :: split_ws r
      else
        match split_ws r with
        | piece :: pieces => String c piece :: pieces
        | [] => [String c EmptyString]
        end
  end.

(** [arr.join(sep)] on an array of strings *)
Definition join (sep : string) (l : list string) : string := String.concat sep l.

(** [t] is what [s] begins with. *)
Fixpoint startsWith (t s : string) : bool :=
  match t, s with
  | EmptyString, _ => true
  | String c t', String d s' => Ascii.eqb c d && startsWith t' s'
  | String _ _, EmptyString => false
  end.

(** [s.includes(t)]: [t] occurs in [s] as a contiguous substring. *)
Fixpoint includes (s t : string) : bool :=
  startsWith t s ||
  match s with
  | EmptyString => false
  | String _ r => includes r t
  end.

(** [arr.includes(w)] on an array of strings *)
Definition arrayIncludes (l : list string) (w : string) : bool :=
  existsb (String.eqb w) l.

Fixpoint dropWhile (p : ascii -> bool) (s : string) : string :=
  match s with
  | EmptyString => EmptyString
  | String c r => if p c then dropWhile p r else s
  end.

Fixpoint rev_string (acc s : string) : string :=
  match s with
  | EmptyString => acc
  | String c r => rev_string (String c acc) r
  end.

(** [String.prototype.trim] *)
Definition trim (s : string) : string :=
  rev_string "" (dropWhile isWhiteSpace (rev_string "" (dropWhile isWhiteSpace s))).

(** [s.substring(i, j)] for [0 <= i <= j]; [j] is clamped to the length. *)
Definition substring (i j : nat) (s : string) : string := String.substring i (j - i) s.

(** [s.substring(i)] *)
Fixpoint substringFrom (i : nat) (s : string) : string :=
  match i, s with
  | O, _ => s
  | S k, String _ r => substringFrom k r
  | S _, EmptyString => EmptyString
  end.

(** *** [parseInt] with the radix left out *)

Definition isHexDigit (c : ascii) : bool :=
  let n := nat_of_ascii c in
  isDigit c || ((97 <=? n) && (n <=? 102)) || ((65 <=? n) && (n <=? 70)).

Definition digitValue (c : ascii) : Z :=
  let n := Z.of_nat (nat_of_ascii c) in
  if isDigit c then (n - 48)%Z
  else if isLowerAZ c then (n - 87)%Z
  else (n - 55)%Z.

(** The longest prefix made of digits of the radix, as the pair of that
    prefix's value and its length. *)
Fixpoint readDigits (isRadixDigit : ascii -> bool) (radix : Z) (acc : Z) (len : nat)
    (s : string) : Z * nat :=
  match s with
  | EmptyString => (acc, len)
  | String c r =>
      if isRadixDigit c
      then readDigits isRadixDigit radix (acc * radix + digitValue c)%Z (S len) r
      else (acc, len)
  end.

Definition hasHexPrefix (s : string) : bool :=
  match s with
  | String "0" (String "x" _) => true
  | String "0" (String "X" _) => true
  | _ => false
  end.

(** [parseInt(s)].  [None] is [NaN].  The value is the exact integer
    where the engine returns the nearest double; only whether the result
    is [NaN] is observed by the callers below. *)
Definition parseInt (s : string) : option Z :=
  let s1 := dropWhile isWhiteSpace s in
  let '(sign, s2) :=
    match s1 with
    | String "-" r => ((-1)%Z, r)
    | String "+" r => (1%Z, r)
    | _ => (1%Z, s1)
    end in
  let '(v, len) :=
    if hasHexPrefix s2
    then readDigits isHexDigit 16 0 0 (substringFrom 2 s2)
    else readDigits isDigit 10 0 0 s2 in
  match len with
  | O => None
  | S _ => Some (sign * v)%Z
  end.

(** [isNaN(x)] on the result of [parseInt] *)
Definition isNaN (x : option Z) : bool :=
  match x with
  | None => true
  | Some _ => false
  end.

(** [Array.from(new Set(arr))]: the set keeps the first occurrence of each
    value, in insertion order. *)
Definition setAdd (seen : list string) (x : string) : list string :=
  if arrayIncludes seen x then seen else seen ++ [x].

Definition uniqueInOrder (l : list string) : list string := fold_left setAdd l [].

(** [arr.slice(0, n)].  A negative [n] counts from the end of the array. *)
Definition slice0 {A : Type} (l : list A) (n : Z) : list A :=
  let len := Z.of_nat (List.length l) in
  let final := if (n <? 0)%Z then Z.max (len + n) 0 else Z.min n len in
  firstn (Z.to_nat final) l.

(** [t] occurs in [s]: some text, then [t], then some text. *)
Definition occursIn (t s : string) : Prop :=
  exists before after, s = (before ++ t ++ after)%string.

End JsString.
Import JsString.

(* ------------------------------------------------------------------ *)
(** ** Keyword extractor *)

Module Keywords.

(** [specificTerms] of the baseline component *)
Definition specificTerms_baseline : list string :=
  [ "ikorodu"; "apapa"; "badagry"; "cms"; "falomo"; "lagos island";
    "lekki"; "victoria island"; "eti-osa"; "fare"; "schedule"; "route";
    "jetty"; "departure"; "hour"; "time"; "ebute"; "ero"; "ibb" ].

(** [specificTerms] of the location-aware component *)
Definition specificTerms_location : list string :=
  specificTerms_baseline ++ [ "nearest"; "near"; "close"; "closest" ].

Section Extractor.

Variable specificTerms : list string.

(** [words]: lowercase, split on white space, strip what is not [a-z0-9],
    keep the tokens longer than two characters. *)
Definition words (text : string) : list string :=
  filter (fun word => 2 <? String.length word)
    (map (filterChars isLowerAlnum) (split_ws (toLowerCase text))).

(** The test of the [words.filter(...)] call. *)
Definition retained (word : string) : bool :=
  arrayIncludes specificTerms word || isNaN (parseInt word).

(** [foundKeywords] as first computed, before the capitalized words are
    pushed onto it. *)
Definition foundKeywords (text : string) : list string :=
  filter retained (words text).

(** [word.length > 1 && word[0] === word[0].toUpperCase()] *)
Definition startsUpper (word : string) : bool :=
  (1 <? String.length word) &&
  match word with
  | String c _ => Ascii.eqb c (charToUpper c)
  | EmptyString => false
  end.

(** The entries the second pass pushes: the original-case tokens that pass
    [startsUpper], lowercased. *)
Definition capitalizedWords (text : string) : list string :=
  map toLowerCase (filter startsUpper (split_ws text)).

Definition getKeywords (text : string) : list string :=
  slice0 (uniqueInOrder (foundKeywords text ++ capitalizedWords text)) 10.

End Extractor.

(** *** Vocabulary for the extractor's properties *)

(** Only decimal digits, and at least one. *)
Definition purelyNumeric (word : string) : bool :=
  negb (String.eqb word "") && allChars isDigit word.

(** The token opens with a number as [parseInt] reads one: with a decimal
    digit, or with "0x" and a hexadecimal digit; "0x" followed by
    something else is no number. *)
Definition numberLeading (word : string) : bool :=
  match word with
  | String "0" (String "x" rest) =>
      match rest with
      | String c _ => isHexDigit c
      | EmptyString => false
      end
  | String c _ => isDigit c
  | EmptyString => false
  end.

Definition letterLeading (word : string) : bool :=
  match word with
  | String c _ => isLowerAZ c
  | EmptyString => false
  end.

(** Made of [a-z] and [0-9] only, and at least three characters long. *)
Definition plainToken (word : string) : bool :=
  allChars isLowerAlnum word && (2 <? String.length word).

End Keywords.

(* ------------------------------------------------------------------ *)
(** ** JSON values and GeoJSON features *)

Module Json.

Local Set Warnings "-register-all".

Inductive JValue : Type :=
| JUndefined
| JNull
| JBool (b : bool)
| JNum (x : float)
| JStr (s : string)
| JArr (items : list JValue)
| JObj (fields : list (string * JValue)).

(** The own enumerable properties of a plain object, in enumeration order
    and with distinct keys. *)
Definition JObject : Type := list (string * JValue).

Fixpoint lookup (key : string) (o : JObject) : JValue :=
  match o with
  | [] => JUndefined
  | (k, v) :: rest => if String.eqb k key then v else lookup key rest
  end.

Definition nullish (v : JValue) : bool :=
  match v with
  | JUndefined | JNull => true
  | _ => false
  end.

(** ToBoolean *)
Definition truthy (v : JValue) : bool :=
  match v with
  | JUndefined | JNull => false
  | JBool b => b
  | JNum x => negb ((x =? 0)%float || PrimFloat.is_nan x)
  | JStr s => negb (String.eqb s "")
  | JArr _ | JObj _ => true
  end.

(** [v.key] for a [v] that is neither [null] nor [undefined], and a key
    that is neither ["length"] nor an index: only objects carry it. *)
Definition get (v : JValue) (key : string) : JValue :=
  match v with
  | JObj o => lookup key o
  | _ => JUndefined
  end.

(** [v?.key] *)
Definition optGet (v : JValue) (key : string) : JValue :=
  if nullish v then JUndefined else get v key.

Fixpoint chars (s : string) : list JValue :=
  match s with
  | EmptyString => []
  | String c r => JStr (String c EmptyString) :: chars r
  end.

(** [v?.[0]] *)
Definition optFirst (v : JValue) : JValue :=
  match v with
  | JArr items => nth 0 items JUndefined
  | JStr s => nth 0 (chars s) JUndefined
  | JObj o => lookup "0" o
  | _ => JUndefined
  end.

(** [Object.values(v)] for a [v] that is neither [null] nor [undefined]
    (every call below is guarded so). *)
Definition Object_values (v : JValue) : list JValue :=
  match v with
  | JObj o => map snd o
  | JArr items => items
  | JStr s => chars s
  | _ => []
  end.

(** [geometry: { type: string; coordinates: C }] *)
Record Geometry (C : Type) : Type := mkGeometry {
  geometry_type : string;
  coordinates : C
}.
Arguments mkGeometry {C}.
Arguments geometry_type {C}.
Arguments coordinates {C}.

(** A GeoJSON feature: [{ type, properties, geometry }]. *)
Record Feature (C : Type) : Type := mkFeature {
  type : string;
  properties : JObject;
  geometry : Geometry C
}.
Arguments mkFeature {C}.
Arguments type {C}.
Arguments properties {C}.
Arguments geometry {C}.

(** [Coordinate = [number, number, number]]: longitude, latitude, height *)
Definition Coordinate : Type := list float.

Definition JettyFeature : Type := Feature Coordinate.
Definition RouteFeature : Type := Feature (list Coordinate).

(** The [ferryData] object: [{ jetties, routes }]. *)
Record FerryData : Type := mkFerryData {
  jetties : list JettyFeature;
  routes : list RouteFeature
}.

End Json.
Import Json.

(* ------------------------------------------------------------------ *)
(** ** Data scoper *)

Module Scoper.

(** The object [filterDataByKeywords] returns: [{ jetties, routes, isSample }]. *)
Record FilteredData : Type := mkFilteredData {
  filtered : FerryData;
  isSample : bool
}.

Section Filter.

Variable MAX_ITEMS : Z.
Variable keywords : list string.

(** [typeof value === 'string' &&
     keywords.some(kw => value.toLowerCase().includes(kw))] *)
Definition valueMatches (value : JValue) : bool :=
  match value with
  | JStr s => existsb (fun kw => includes (toLowerCase s) kw) keywords
  | _ => false
  end.

Definition jettyMatches (jetty : JettyFeature) : bool :=
  existsb valueMatches (Object_values (JObj (properties jetty))).

Definition routeMatches (route : RouteFeature) : bool :=
  if existsb valueMatches (Object_values (JObj (properties route))) then true
  else
    let publicDetails := optGet (lookup "operator" (properties route)) "Public" in
    let privateDetails := optGet (lookup "operator" (properties route)) "Private" in
    if truthy publicDetails && existsb valueMatches (Object_values publicDetails) then true
    else if truthy privateDetails && existsb valueMatches (Object_values privateDetails) then true
    else false.

Definition filterDataByKeywords (data : FerryData) : FilteredData :=
  if List.length keywords =? 0 then
    {| filtered := {| jetties := slice0 (jetties data) 3;
                      routes := slice0 (routes data) 3 |};
       isSample := true |}
  else
    let filteredJetties := filter jettyMatches (jetties data) in
    let filteredRoutes := filter routeMatches (routes data) in
    {| filtered := {| jetties := slice0 filteredJetties MAX_ITEMS;
                      routes := slice0 filteredRoutes MAX_ITEMS |};
       isSample := false |}.

End Filter.

End Scoper.

(* ------------------------------------------------------------------ *)
(** ** Query classifier *)

Module Classifier.

Definition nearbyKeywords : list string :=
  [ "nearest"; "near"; "close"; "closest"; "around"; "nearby" ].

Definition jettyKeywords : list string :=
  [ "jetty"; "jetties"; "terminal"; "stop"; "station" ].

Definition isNearestJettyQuery (text : string) : bool :=
  let textLower := toLowerCase text in
  existsb (fun nk => includes textLower nk) nearbyKeywords &&
  existsb (fun jk => includes textLower jk) jettyKeywords.

End Classifier.

(* ------------------------------------------------------------------ *)
(** ** Markdown-subset renderer *)

Module Markdown.

Inductive SegmentType : Type := text | bold | link.

Record TextSegment : Type := mkSegment {
  type : SegmentType;
  content : string;
  url : option string
}.

(** What [exec] reports of a match: [match[0].length] and the two capture
    groups ([match[2]] is absent for the bold pattern). *)
Record MatchResult : Type := mkMatch {
  matchLength : nat;
  group1 : string;
  group2 : option string
}.

(** The longest prefix of [s] without the character [stop], and what
    follows it. *)
Fixpoint spanUntil (stop : ascii) (s : string) : string * string :=
  match s with
  | EmptyString => (EmptyString, EmptyString)
  | String c r =>
      if Ascii.eqb c stop then (EmptyString, s)
      else let '(run, rest) := spanUntil stop r in (String c run, rest)
  end.

(** [LINK_REGEX = /\[([^\]]+)\]\(([^)]+)\)/] tried at the start of [s].
    Each negated class is closed by the very character it excludes, so
    the greedy run is the only split that can match and no backtracking
    is involved. *)
Definition matchLinkAt (s : string) : option MatchResult :=
  match s with
  | String "[" r =>
      let '(label, r1) := spanUntil "]" r in
      match label, r1 with
      | String _ _, String "]" (String "(" r2) =>
          let '(target, r3) := spanUntil ")" r2 in
          match target, r3 with
          | String _ _, String ")" _ =>
              Some {| matchLength := String.length label + String.length target + 4;
                      group1 := label;
                      group2 := Some target |}
          | _, _ => None
          end
      | _, _ => None
      end
  | _ => None
  end.

(** [BOLD_REGEX = /\*\*([^\*]+)\*\*/] tried at the start of [s]. *)
Definition matchBoldAt (s : string) : option MatchResult :=
  match s with
  | String "*" (String "*" r) =>
      let '(inner, r1) := spanUntil "*" r in
      match inner, r1 with
      | String _ _, String "*" (String "*" _) =>
          Some {| matchLength := String.length inner + 4;
                  group1 := inner;
                  group2 := None |}
      | _, _ => None
      end
  | _ => None
  end.

Section Scan.

Variable matchAt : string -> option MatchResult.
Variable segmentOf : MatchResult -> TextSegment.

(** The first position at or after [pos] where the pattern matches;
    [suffix] is the subject from [pos] on. *)
Fixpoint searchFrom (pos : nat) (suffix : string) : option (nat * MatchResult) :=
  match matchAt suffix with
  | Some m => Some (pos, m)
  | None =>
      match suffix with
      | EmptyString => None
      | String _ r => searchFrom (S pos) r
      end
  end.

(** [regex.exec(subject)] of a global regex whose [lastIndex] property is
    [regexLastIndex]: the match and its [index], after which the property
    is the end of the match; or [null], after which the property is 0. *)
Definition exec (subject : string) (regexLastIndex : nat) : option (nat * MatchResult) :=
  if String.length subject <? regexLastIndex then None
  else searchFrom regexLastIndex (substringFrom regexLastIndex subject).

(** The [while ((match = regex.exec(seg.content)) !== null)] loop and the
    [if (lastIndex < seg.content.length)] after it, pushing onto
    [newSegments].  The regex property and the local [lastIndex] start at 0
    and are both the end of the last match afterwards.  [None]: the fuel
    ran out before [exec] returned [null]. *)
Fixpoint scanLoop (fuel : nat) (subject : string) (lastIndex : nat)
    (newSegments : list TextSegment) : option (list TextSegment) :=
  match fuel with
  | O => None
  | S fuel' =>
      match exec subject lastIndex with
      | Some (index, m) =>
          let pushed :=
            if lastIndex <? index
            then newSegments ++ [mkSegment text (substring lastIndex index subject) None]
            else newSegments in
          scanLoop fuel' subject (index + matchLength m) (pushed ++ [segmentOf m])
      | None =>
          Some (if lastIndex <? String.length subject
                then newSegments ++ [mkSegment text (substringFrom lastIndex subject) None]
                else newSegments)
      end
  end.

(** One [segments.forEach(seg => ...)] pass. *)
Fixpoint pass (segments : list TextSegment) (newSegments : list TextSegment)
    : option (list TextSegment) :=
  match segments with
  | [] => Some newSegments
  | seg :: rest =>
      match type seg with
      | text =>
          match scanLoop (S (String.length (content seg))) (content seg) 0 newSegments with
          | Some pushed => pass rest pushed
          | None => None
          end
      | _ => pass rest (newSegments ++ [seg])
      end
  end.

End Scan.

Definition linkSegment (m : MatchResult) : TextSegment :=
  mkSegment link (group1 m) (group2 m).

Definition boldSegment (m : MatchResult) : TextSegment :=
  mkSegment bold (group1 m) None.

Definition keptSegment (s : TextSegment) : bool :=
  negb (String.eqb (trim (content s)) "") ||
  match type s with
  | text => false
  | _ => true
  end.

Definition parseMarkdown (input : string) : option (list TextSegment) :=
  let segments := [mkSegment text input None] in
  match pass matchLinkAt linkSegment segments [] with
  | Some segments =>
      match pass matchBoldAt boldSegment segments [] with
      | Some newSegments => Some (filter keptSegment newSegments)
      | None => None
      end
  | None => None
  end.

End Markdown.

(* ------------------------------------------------------------------ *)
(** ** Geospatial distance and proximity ranking *)

Module Proximity.

Record UserLocation : Type := mkUserLocation {
  latitude : float;
  longitude : float
}.

(** The object [{ ...jetty, distance }]: the own fields of the feature
    ([type], [properties], [geometry]) copied as they are, and the field
    [distance]. *)
Record JettyWithDistance : Type := mkWithDistance {
  spread : JettyFeature;
  distance : float
}.

(** [Math.PI] *)
Definition Math_PI : float := 0x1.921fb54442d18p+1%float.

(** [arr[i]] on an array of numbers, read as a number: a missing entry is
    [undefined], which arithmetic turns into [NaN]. *)
Definition at_index (arr : list float) (i : nat) : float := nth i arr PrimFloat.nan.

Section Distance.

Variable Math_sin : float -> float.
Variable Math_cos : float -> float.
Variable Math_atan2 : float -> float -> float.

Local Open Scope float_scope.

(** Haversine formula *)
Definition calculateDistance (lat1 lon1 lat2 lon2 : float) : float :=
  let R := 6371 in
  let dLat := (lat2 - lat1) * Math_PI / 180 in
  let dLon := (lon2 - lon1) * Math_PI / 180 in
  let a :=
    Math_sin (dLat / 2) * Math_sin (dLat / 2) +
    Math_cos (lat1 * Math_PI / 180) * Math_cos (lat2 * Math_PI / 180) *
    Math_sin (dLon / 2) * Math_sin (dLon / 2) in
  let c := 2 * Math_atan2 (PrimFloat.sqrt a) (PrimFloat.sqrt (1 - a)) in
  R * c.

(** The function mapped over [jetties]. *)
Definition withDistance (userLocation : UserLocation) (jetty : JettyFeature)
    : JettyWithDistance :=
  let jettyLat := at_index (coordinates (geometry jetty)) 1 in
  let jettyLon := at_index (coordinates (geometry jetty)) 0 in
  let distance :=
    calculateDistance (latitude userLocation) (longitude userLocation) jettyLat jettyLon in
  {| spread := jetty; distance := distance |}.

(** The comparator [(a, b) => a.distance - b.distance]. *)
Definition compareFn (a b : JettyWithDistance) : float := distance a - distance b.

(** [b] is moved in front of [a] only when the comparator is positive on
    [(a, b)]; a zero or a [NaN] leaves the two in their order. *)
Definition inOrder (a b : JettyWithDistance) : bool := negb (0 <? compareFn a b).

(** [Array.prototype.sort(compareFn)].  The sort is stable, and for a
    consistent comparator its result is the one a stable insertion sort
    gives; for an inconsistent one (a [NaN] among the distances) the
    order is left to the engine, and nothing is proved about it below. *)
Fixpoint insertSorted (x : JettyWithDistance) (sorted : list JettyWithDistance)
    : list JettyWithDistance :=
  match sorted with
  | [] => [x]
  | y :: rest => if inOrder x y then x :: y :: rest else y :: insertSorted x rest
  end.

Fixpoint sort (l : list JettyWithDistance) : list JettyWithDistance :=
  match l with
  | [] => []
  | x :: rest => insertSorted x (sort rest)
  end.

(** [count: number = 3]: [None] is a call that leaves the argument out. *)
Definition findNearestJetties (userLocation : UserLocation) (jetties : list JettyFeature)
    (count : option Z) : list JettyWithDistance :=
  let count := match count with Some n => n | None => 3%Z end in
  let jettiesWithDistance := map (withDistance userLocation) jetties in
  slice0 (sort jettiesWithDistance) count.

End Distance.

(** *** Vocabulary for the ranking properties *)

(** The sort leaves [a] in front of [b]. *)
Definition before (a b : JettyWithDistance) : Prop := inOrder a b = true.

(** [a] and [b] tie for the sort: neither is moved in front of the other. *)
Definition tie (a b : JettyWithDistance) : bool := inOrder a b && inOrder b a.

Local Open Scope float_scope.

(** The numbers of [D] behave as numbers do: the sign of a difference
    agrees with the comparison, any two are comparable and the comparison
    is transitive.  This is so for finite doubles and fails as soon as a
    [NaN] is among them. *)
Definition ordinary (D : list float) : bool :=
  forallb (fun a =>
    forallb (fun b =>
      Bool.eqb (0 <? a - b) (b <? a) &&
      Bool.eqb (a <=? b) (negb (b <? a)) &&
      ((a <=? b) || (b <=? a)) &&
      forallb (fun c => implb ((a <=? b) && (b <=? c)) (a <=? c)) D) D) D.

Definition nearerOrEqual (a b : JettyWithDistance) : Prop :=
  (distance a <=? distance b) = true.

(** [a] and [b] are at the same distance. *)
Definition sameDistance (a b : JettyWithDistance) : bool :=
  (distance a <=? distance b) && (distance b <=? distance a).

End Proximity.

(* ------------------------------------------------------------------ *)
(** ** Assistant orchestrator *)

Module Chat.

Import Proximity.

(** ["welcome"], or the decimal form of a clock reading
    ([Date.now().toString()], [(Date.now() + 1).toString()]). *)
Inductive MessageId : Type :=
| IdWelcome
| IdOfNumber (ms : Z).

(** [text] is typed [string], and holds whatever value is stored in it:
    the reply text comes from the parsed response as it is. *)
Record Message : Type := mkMessage {
  id : MessageId;
  text : JValue;
  isUser : bool;
  timestamp : Z;
  isSystemMessage : option bool
}.

(** The values of the component's state hooks in one render. *)
Record ChatState : Type := mkChatState {
  messages : list Message;
  inputText : string;
  loading : bool;
  ferryData : option FerryData;
  userLocation : option UserLocation;
  locationPermissionGranted : bool
}.

Definition setMessages (f : list Message -> list Message) (st : ChatState) : ChatState :=
  {| messages := f (messages st); inputText := inputText st; loading := loading st;
     ferryData := ferryData st; userLocation := userLocation st;
     locationPermissionGranted := locationPermissionGranted st |}.

Definition setInputText (s : string) (st : ChatState) : ChatState :=
  {| messages := messages st; inputText := s; loading := loading st;
     ferryData := ferryData st; userLocation := userLocation st;
     locationPermissionGranted := locationPermissionGranted st |}.

Definition setLoading (b : bool) (st : ChatState) : ChatState :=
  {| messages := messages st; inputText := inputText st; loading := b;
     ferryData := ferryData st; userLocation := userLocation st;
     locationPermissionGranted := locationPermissionGranted st |}.

Definition setUserLocation (l : UserLocation) (st : ChatState) : ChatState :=
  {| messages := messages st; inputText := inputText st; loading := loading st;
     ferryData := ferryData st; userLocation := Some l;
     locationPermissionGranted := locationPermissionGranted st |}.

Definition setLocationPermissionGranted (b : bool) (st : ChatState) : ChatState :=
  {| messages := messages st; inputText := inputText st; loading := loading st;
     ferryData := ferryData st; userLocation := userLocation st;
     locationPermissionGranted := b |}.

(** A statement list either completes or throws an [Error] with a
    [message]. *)
Inductive Completion (A : Type) : Type :=
| Normal (a : A)
| Throw (message : string).
Arguments Normal {A}.
Arguments Throw {A}.

(** The scoped data and label that go into the prompt. *)
Inductive ContextData : Type :=
| KeywordContext (keywords : list string) (filteredData : Scoper.FilteredData)
| LocationContext (nearestJetties : list JettyWithDistance).

Record Prompt : Type := mkPrompt {
  contextData : ContextData;
  question : string
}.

(** What the device answers to [requestLocationPermission]. *)
Inductive LocationOutcome : Type :=
| Refused
| GrantedWithoutPosition
| GrantedAt (location : UserLocation).

(** The clock readings one send takes: when the user's message is made,
    when the permission notice and the denial notice are made, and when
    the reply or the failure is made. *)
Record Clock : Type := mkClock {
  atSend : Z;
  atNotice : Z;
  atDenied : Z;
  atReply : Z
}.

Section Orchestrator.

Variable Math_sin : float -> float.
Variable Math_cos : float -> float.
Variable Math_atan2 : float -> float -> float.

(** [Number.prototype.toString] *)
Variable Number_toString : float -> string.

(** The message of the [TypeError] the engine throws on a property read
    from [null] or [undefined]. *)
Variable TypeError_message : string.

(** [fetch(GOOGLE_AI_URL, ...)] followed by [response.json()]: the parsed
    body, or the error thrown by the network or the parser. *)
Variable generationService : Prompt -> Completion JValue.

Variable specificTerms : list string.
Variable MAX_ITEMS : Z.

(** ToString, as a template literal applies it. *)
Fixpoint ToString (v : JValue) : string :=
  match v with
  | JUndefined => "undefined"
  | JNull => "null"
  | JBool true => "true"
  | JBool false => "false"
  | JNum x => Number_toString x
  | JStr s => s
  | JArr items =>
      join "," (map (fun item => if nullish item then "" else ToString item) items)
  | JObj _ => "[object Object]"
  end.

(** [a || b] *)
Definition orElse (a b : JValue) : JValue := if truthy a then a else b.

(** The statements of the [try] block after [const data = await
    response.json()]: the reply to append, or the error thrown. *)
Definition handleResponse (data : JValue) (now : Z) : Completion Message :=
  if nullish data then Throw TypeError_message
  else if truthy (get data "error") then
    let errorMessage :=
      orElse (get (get data "error") "message") (JStr "An unknown API error occurred.") in
    Throw ("Gemini API Error: " ++ ToString errorMessage)
  else
    let aiResponseText :=
      optGet (optFirst (optGet (optGet (optFirst (get data "candidates")) "content") "parts"))
        "text" in
    if truthy aiResponseText then
      Normal {| id := IdOfNumber (now + 1); text := aiResponseText; isUser := false;
                timestamp := now; isSystemMessage := None |}
    else
      let finishReason := optGet (optFirst (get data "candidates")) "finishReason" in
      match finishReason with
      | JStr "SAFETY" => Throw "AI response was blocked due to safety settings."
      | _ =>
          Throw ("Invalid or incomplete response from AI. Finish Reason: "
                 ++ ToString (orElse finishReason (JStr "Unknown")) ++ ".")
      end.

(** The [catch (error)] block. *)
Definition failureMessage (errorText : string) (now : Z) : Message :=
  {| id := IdOfNumber (now + 1);
     text := JStr ("Sorry, I can't answer right now. Error: "
                   ++ (if String.eqb errorText "" then "Unknown error." else errorText)
                   ++ " 🙏");
     isUser := false; timestamp := now; isSystemMessage := None |}.

(** [try { ... } catch (error) { ... } finally { setLoading(false) }] around
    a body that ends in a reply or in a thrown error. *)
Definition settle (outcome : Completion Message) (now : Z) (st : ChatState) : ChatState :=
  let appended :=
    match outcome with
    | Normal aiMessage => setMessages (fun prev => prev ++ [aiMessage]) st
    | Throw errorText => setMessages (fun prev => prev ++ [failureMessage errorText now]) st
    end in
  setLoading false appended.

Definition userMessage (st : ChatState) (now : Z) : Message :=
  {| id := IdOfNumber now; text := JStr (inputText st); isUser := true;
     timestamp := now; isSystemMessage := None |}.

(** [!inputText.trim() || loading || !ferryData] *)
Definition sendRefused (st : ChatState) : bool :=
  String.eqb (trim (inputText st)) "" || loading st ||
  match ferryData st with
  | None => true
  | Some _ => false
  end.

(** [sendMessage] of the baseline component *)
Definition sendMessage_baseline (clock : Clock) (st : ChatState) : ChatState :=
  match sendRefused st, ferryData st with
  | false, Some data =>
      let st1 :=
        setLoading true
          (setInputText "" (setMessages (fun prev => prev ++ [userMessage st (atSend clock)]) st)) in
      let keywords := Keywords.getKeywords specificTerms (inputText st) in
      let filteredData := Scoper.filterDataByKeywords MAX_ITEMS keywords data in
      let outcome :=
        match generationService {| contextData := KeywordContext keywords filteredData;
                                   question := inputText st |} with
        | Normal data => handleResponse data (atReply clock)
        | Throw e => Throw e
        end in
      settle outcome (atReply clock) st1
  | _, _ => st
  end.

(** [requestLocationPermission]: the permission is refused (or asking for
    it throws), or it is granted and reading the position throws, or it
    is granted and the position is read. *)
Definition requestLocationPermission (outcome : LocationOutcome) (st : ChatState)
    : ChatState * bool :=
  match outcome with
  | Refused => (st, false)
  | GrantedWithoutPosition => (setLocationPermissionGranted true st, false)
  | GrantedAt location =>
      (setUserLocation location (setLocationPermissionGranted true st), true)
  end.

(** [handleNearestJettyQuery].  [render] holds the values the closure was
    created with; [st] is the state the setters act on. *)
Definition handleNearestJettyQuery (clock : Clock) (position : LocationOutcome)
    (render st : ChatState) : ChatState * option (list JettyWithDistance) :=
  let hasLocation :=
    locationPermissionGranted render &&
    match userLocation render with Some _ => true | None => false end in
  let '(st1, proceed) :=
    if negb hasLocation then
      let permissionMessage :=
        {| id := IdOfNumber (atNotice clock);
           text := JStr "📍 To find the nearest jetty, I need access to your location. Please allow location access.";
           isUser := false; timestamp := atNotice clock; isSystemMessage := Some true |} in
      let st1 := setMessages (fun prev => prev ++ [permissionMessage]) st in
      let '(st2, granted) := requestLocationPermission position st1 in
      if negb granted then
        let errorMessage :=
          {| id := IdOfNumber (atDenied clock + 1);
             text := JStr "❌ I couldn't access your location. Please enable location services and try again.";
             isUser := false; timestamp := atDenied clock; isSystemMessage := None |} in
        (setMessages (fun prev => prev ++ [errorMessage]) st2, false)
      else (st2, true)
    else (st, true) in
  if proceed then
    match ferryData render, userLocation render with
    | Some data, Some location =>
        (st1, Some (findNearestJetties Math_sin Math_cos Math_atan2 location
                      (jetties data) (Some 5%Z)))
    | _, _ => (st1, None)
    end
  else (st1, None).

(** [sendMessage] of the location-aware component *)
Definition sendMessage_location (clock : Clock) (position : LocationOutcome)
    (st : ChatState) : ChatState :=
  match sendRefused st, ferryData st with
  | false, Some data =>
      let currentInput := inputText st in
      let st1 :=
        setLoading true
          (setInputText "" (setMessages (fun prev => prev ++ [userMessage st (atSend clock)]) st)) in
      let isLocationQuery := Classifier.isNearestJettyQuery currentInput in
      let '(st2, context) :=
        if isLocationQuery then
          match handleNearestJettyQuery clock position st st1 with
          | (st2, Some nearestJetties) => (st2, Some (LocationContext nearestJetties))
          | (st2, None) => (st2, None)
          end
        else
          let keywords := Keywords.getKeywords specificTerms currentInput in
          (st1, Some (KeywordContext keywords
                        (Scoper.filterDataByKeywords MAX_ITEMS keywords data))) in
      match context with
      | None => setLoading false st2
      | Some contextData =>
          let outcome :=
            match generationService {| contextData := contextData;
                                       question := currentInput |} with
            | Normal data => handleResponse data (atReply clock)
            | Throw e => Throw e
            end in
          settle outcome (atReply clock) st2
      end
  | _, _ => st
  end.

End Orchestrator.

End Chat.

(* ------------------------------------------------------------------ *)
(** ** The two components *)

Module Baseline.

Definition specificTerms : list string := Keywords.specificTerms_baseline.
Definition MAX_ITEMS : Z := 15.

Definition getKeywords : string -> list string := Keywords.getKeywords specificTerms.

Definition filterDataByKeywords (data : FerryData) (keywords : list string)
    : Scoper.FilteredData :=
  Scoper.filterDataByKeywords MAX_ITEMS keywords data.

Definition sendMessage Number_toString TypeError_message generationService :=
  Chat.sendMessage_baseline Number_toString TypeError_message generationService
    specificTerms MAX_ITEMS.

End Baseline.

Module LocationAware.

Definition specificTerms : list string := Keywords.specificTerms_location.
Definition MAX_ITEMS : Z := 8.

Definition getKeywords : string -> list string := Keywords.getKeywords specificTerms.

Definition filterDataByKeywords (data : FerryData) (keywords : list string)
    : Scoper.FilteredData :=
  Scoper.filterDataByKeywords MAX_ITEMS keywords data.

Definition sendMessage Math_sin Math_cos Math_atan2 Number_toString TypeError_message
    generationService :=
  Chat.sendMessage_location Math_sin Math_cos Math_atan2 Number_toString TypeError_message
    generationService specificTerms MAX_ITEMS.

End LocationAware.

(* ------------------------------------------------------------------ *)
(** ** Map screen: badge colours *)

Module MapScreen.

(** [value?.includes(term)] used as a condition: [undefined] is falsy. *)
Definition optIncludes (value : option string) (term : string) : bool :=
  match value with
  | Some s => includes s term
  | None => false
  end.

(** [getStatusColor]; [None] is a missing ([null] or [undefined]) status. *)
Definition getStatusColor (status : option string) : string :=
  let statusLower := option_map toLowerCase status in
  if optIncludes statusLower "completed" || optIncludes statusLower "operational"
  then "#10B981"
  else if optIncludes statusLower "construction" then "#F59E0B"
  else if optIncludes statusLower "non-operational" then "#EF4444"
  else "#6B7280".

(** [getQualityBadge] *)
Definition getQualityBadge (quality : option string) : string :=
  let qualityLower := option_map toLowerCase quality in
  if optIncludes qualityLower "developed" then "#10B981"
  else if optIncludes qualityLower "less" then "#F59E0B"
  else if optIncludes qualityLower "poor" then "#EF4444"
  else "#3B82F6".

End MapScreen.

(* ------------------------------------------------------------------ *)
(** ** Jetty filter drawer *)

Module FilterDrawer.

(** [properties] of the drawer's own [JettyFeature] interface: four named
    string fields, and whatever else the feature carries. *)
Record Properties : Type := mkProperties {
  ferry_stop_id : string;
  name : string;
  LGA : string;
  charter_services : string;
  others : JObject
}.

Record JettyFeature : Type := mkJetty {
  type : string;
  properties : Properties;
  geometry : JValue
}.

(** [Array.prototype.sort()] without a comparator, on strings: ascending
    by code units. *)
Fixpoint insertString (x : string) (sorted : list string) : list string :=
  match sorted with
  | [] => [x]
  | y :: rest => if String.ltb y x then y :: insertString x rest else x :: y :: rest
  end.

Fixpoint sortStrings (l : list string) : list string :=
  match l with
  | [] => []
  | x :: rest => insertString x (sortStrings rest)
  end.

Definition charterOptions : list string := ["Yes"; "No"].

(** [prev.includes(x) ? prev.filter((l) => l !== x) : [...prev, x]] *)
Definition toggle (x : string) (prev : list string) : list string :=
  if arrayIncludes prev x then filter (fun l => negb (String.eqb l x)) prev
  else prev ++ [x].

(** The two filter states of the component. *)
Record Selection : Type := mkSelection {
  selectedLGAs : list string;
  selectedCharterServices : list string
}.

(** What the user can press: an option of either section, either
    "select all" label, or the reset button. *)
Inductive Press : Type :=
| PressLGA (lga : string)
| PressCharterService (service : string)
| PressSelectAllLGAs
| PressSelectAllCharterServices
| PressReset.

Section Drawer.

Variable jetties : list JettyFeature.

Definition uniqueLGAs : list string :=
  sortStrings (uniqueInOrder (map (fun j => LGA (properties j)) jetties)).

(** The initial state: everything selected. *)
Definition initialSelection : Selection :=
  {| selectedLGAs := uniqueLGAs; selectedCharterServices := charterOptions |}.

(** [applyFilters]: the list handed to [onFilterChange]. *)
Definition applyFilters (sel : Selection) : list JettyFeature :=
  filter
    (fun jetty =>
       let lgaMatch := arrayIncludes (selectedLGAs sel) (LGA (properties jetty)) in
       let charterMatch :=
         arrayIncludes (selectedCharterServices sel) (charter_services (properties jetty)) in
       lgaMatch && charterMatch)
    jetties.

Definition toggleLGA (lga : string) (sel : Selection) : Selection :=
  {| selectedLGAs := toggle lga (selectedLGAs sel);
     selectedCharterServices := selectedCharterServices sel |}.

Definition toggleCharterService (service : string) (sel : Selection) : Selection :=
  {| selectedLGAs := selectedLGAs sel;
     selectedCharterServices := toggle service (selectedCharterServices sel) |}.

Definition selectAllLGAs (sel : Selection) : Selection :=
  {| selectedLGAs :=
       if List.length (selectedLGAs sel) =? List.length uniqueLGAs then [] else uniqueLGAs;
     selectedCharterServices := selectedCharterServices sel |}.

Definition selectAllCharterServices (sel : Selection) : Selection :=
  {| selectedLGAs := selectedLGAs sel;
     selectedCharterServices :=
       if List.length (selectedCharterServices sel) =? List.length charterOptions
       then [] else charterOptions |}.

Definition resetFilters (sel : Selection) : Selection :=
  {| selectedLGAs := uniqueLGAs; selectedCharterServices := charterOptions |}.

Definition getFilterCount (sel : Selection) : Z :=
  let totalFilters := Z.of_nat (List.length uniqueLGAs + List.length charterOptions) in
  let activeFilters :=
    Z.of_nat (List.length (selectedLGAs sel) + List.length (selectedCharterServices sel)) in
  if (activeFilters =? totalFilters)%Z then 0%Z else (totalFilters - activeFilters)%Z.

(** The handler each pressable runs. *)
Definition press (sel : Selection) (p : Press) : Selection :=
  match p with
  | PressLGA lga => toggleLGA lga sel
  | PressCharterService service => toggleCharterService service sel
  | PressSelectAllLGAs => selectAllLGAs sel
  | PressSelectAllCharterServices => selectAllCharterServices sel
  | PressReset => resetFilters sel
  end.

(** The option buttons are rendered from [uniqueLGAs] and
    [charterOptions]: only those can be pressed. *)
Definition pressable (p : Press) : Prop :=
  match p with
  | PressLGA lga => In lga uniqueLGAs
  | PressCharterService service => In service charterOptions
  | _ => True
  end.

(** The options of both sections that are not selected. *)
Definition unselected (sel : Selection) : list string :=
  filter (fun lga => negb (arrayIncludes (selectedLGAs sel) lga)) uniqueLGAs
  ++ filter (fun s => negb (arrayIncludes (selectedCharterServices sel) s)) charterOptions.

End Drawer.

(** *** Vocabulary for the drawer's properties *)

(** Ascending order of strings, by code units. *)
Definition ascending (a b : string) : Prop := String.leb a b = true.

(** Each selection list holds distinct values of its option list. *)
Definition tidy (jetties : list JettyFeature) (sel : Selection) : Prop :=
  NoDup (selectedLGAs sel) /\ incl (selectedLGAs sel) (uniqueLGAs jetties)
  /\ NoDup (selectedCharterServices sel)
  /\ incl (selectedCharterServices sel) charterOptions.

Definition sampleJetty (lga charter : string) : JettyFeature :=
  {| type := "Feature";
     properties := {| ferry_stop_id := "J"; name := "Jetty"; LGA := lga;
                      charter_services := charter; others := [] |};
     geometry := JNull |}.

Definition sampleJetties : list JettyFeature :=
  [ sampleJetty "Lagos Island" "Yes"; sampleJetty "Ikorodu" "No";
    sampleJetty "Eti-Osa" "Yes"; sampleJetty "Ikorodu" "Yes";
    sampleJetty "Apapa" "Unknown" ].

End FilterDrawer.

(* ------------------------------------------------------------------ *)
(** ** Data scoper: vocabulary for its properties *)

Module ScoperWords.

(** One of the fields is a string that, lowercased, contains one of the
    keywords. *)
Definition fieldMatch (keywords : list string) (fields : JObject) : Prop :=
  exists key s kw,
    In (key, JStr s) fields /\ In kw keywords /\ occursIn kw (toLowerCase s).

(** [route.properties.operator?.Public] and [...?.Private] *)
Definition operatorDetails (side : string) (route : RouteFeature) : JValue :=
  optGet (lookup "operator" (properties route)) side.

Definition fieldsOf (v : JValue) : JObject :=
  match v with
  | JObj fields => fields
  | _ => []
  end.

(** As the [RouteFeature] interface has it: an [OperatorDetails] object, or
    nothing. *)
Definition objectOrMissing (v : JValue) : Prop :=
  v = JUndefined \/ exists fields, v = JObj fields.

Definition hasUpperCase (s : string) : bool :=
  negb (allChars (fun c => negb (isUpperAZ c)) s).

End ScoperWords.

(* ------------------------------------------------------------------ *)
(** ** Assistant orchestrator: vocabulary for its properties *)

Module ChatWords.

Import Chat.

(** [data.candidates?.[0]?.content?.parts?.[0]?.text] *)
Definition aiResponseTextOf (data : JValue) : JValue :=
  optGet (optFirst (optGet (optGet (optFirst (get data "candidates")) "content") "parts"))
    "text".

(** [data.candidates?.[0]?.finishReason] *)
Definition finishReasonOf (data : JValue) : JValue :=
  optGet (optFirst (get data "candidates")) "finishReason".

(** How many jetties and how many routes a prompt carries. *)
Definition jettyCount (p : Prompt) : nat :=
  match contextData p with
  | KeywordContext _ d => List.length (jetties (Scoper.filtered d))
  | LocationContext nearest => List.length nearest
  end.

Definition routeCount (p : Prompt) : nat :=
  match contextData p with
  | KeywordContext _ d => List.length (routes (Scoper.filtered d))
  | LocationContext _ => 0
  end.

(** The state a send starts from passes the guard: the input is not
    blank, no request is outstanding and the dataset is loaded. *)
Definition accepted (st : ChatState) (data : FerryData) : Prop :=
  trim (inputText st) <> "" /\ loading st = false /\ ferryData st = Some data.

(** An entry written by the assistant at the reply time. *)
Definition assistantEntry (clock : Clock) (body : JValue) : Message :=
  {| id := IdOfNumber (atReply clock + 1); text := body; isUser := false;
     timestamp := atReply clock; isSystemMessage := None |}.

(** The entry a [try] block's outcome leaves in the transcript. *)
Definition entryOf (outcome : Completion Message) (now : Z) : Message :=
  match outcome with
  | Normal aiMessage => aiMessage
  | Throw errorText => failureMessage errorText now
  end.

(** The prompt of the keyword path: the keywords of the question, and the
    dataset scoped by them. *)
Definition keywordPrompt (specificTerms : list string) (MAX_ITEMS : Z)
    (input : string) (data : FerryData) : Prompt :=
  let keywords := Keywords.getKeywords specificTerms input in
  {| contextData :=
       KeywordContext keywords (Scoper.filterDataByKeywords MAX_ITEMS keywords data);
     question := input |}.

(** The state after the user's entry is appended, the input cleared and
    the loading flag set. *)
Definition afterUserEntry (clock : Clock) (st : ChatState) : ChatState :=
  setLoading true
    (setInputText "" (setMessages (fun prev => prev ++ [userMessage st (atSend clock)]) st)).

(** The text of a failure entry. *)
Definition sorry (errorText : string) : JValue :=
  JStr ("Sorry, I can't answer right now. Error: " ++ errorText ++ " 🙏").

End ChatWords.

(* ------------------------------------------------------------------ *)
(** ** Markdown: the text a segment was read from *)

Module MarkdownSource.

Import Markdown.

(** The marked-up text of a segment: plain text as it is, a bold segment
    between double asterisks, a link as [[label](url)]. *)
Definition sourceOf (seg : TextSegment) : string :=
  match type seg with
  | text => content seg
  | bold => "**" ++ content seg ++ "**"
  | link =>
      "[" ++ content seg ++ "](" ++
      (match url seg with Some u => u | None => EmptyString end) ++ ")"
  end.

Fixpoint sourceOfAll (segments : list TextSegment) : string :=
  match segments with
  | [] => EmptyString
  | seg :: rest => sourceOf seg ++ sourceOfAll rest
  end.

Fixpoint hasChar (c : ascii) (s : string) : bool :=
  match s with
  | EmptyString => false
  | String d r => Ascii.eqb d c || hasChar c r
  end.

(** What every segment of a parse looks like. *)
Definition wellFormed (seg : TextSegment) : Prop :=
  match type seg with
  | text => trim (content seg) <> "" /\ url seg = None
  | bold => content seg <> "" /\ hasChar "*" (content seg) = false /\ url seg = None
  | link =>
      content seg <> "" /\ hasChar "]" (content seg) = false /\
      exists target, url seg = Some target /\ target <> "" /\ hasChar ")" target = false
  end.

(** The same before the blank text segments are filtered out. *)
Definition wellFormedOrText (seg : TextSegment) : Prop :=
  match type seg with
  | text => url seg = None
  | _ => wellFormed seg
  end.

End MarkdownSource.

(* ------------------------------------------------------------------ *)
(** ** Sample inputs *)

Module Sample.

Import Proximity.

Local Open Scope float_scope.

(** Series for the sine, the cosine and the arc tangent, close to the
    engine's functions on the small angles that distances inside one
    city produce. *)
Definition sin (x : float) : float := x - x * x * x / 6 + x * x * x * x * x / 120.

Definition cos (x : float) : float := 1 - x * x / 2 + x * x * x * x / 24.

Definition atan2 (y x : float) : float :=
  let t := y / x in t - t * t * t / 3.

Definition jettyAt (name : string) (lon lat : float) : JettyFeature :=
  {| type := "Feature";
     properties := [("name", JStr name); ("LGA", JStr "Lagos Island"); ("status", JStr "Operational")];
     geometry := {| geometry_type := "Point"; coordinates := [lon; lat; 0] |} |}.

Definition here : UserLocation := {| latitude := 6.4375; longitude := 3.375 |}.

Definition sixJetties : list JettyFeature :=
  [ jettyAt "Ikorodu" 3.5 6.625;
    jettyAt "CMS" 3.390625 6.4375;
    jettyAt "Falomo" 3.4375 6.4375;
    jettyAt "Ebute Ero" 3.390625 6.4375;
    jettyAt "Apapa" 3.359375 6.4375;
    jettyAt "Badagry" 2.875 6.40625 ].

Definition routeIkoroduCms : RouteFeature :=
  {| type := "Feature";
     properties :=
       [ ("route_id", JNum 1);
         ("origin", JStr "Ikorodu");
         ("destination", JStr "CMS");
         ("operator",
          JObj [ ("Public",
                  JObj [ ("cost_to_final_destination", JStr "N1500");
                         ("operating_hours", JStr "6am - 6pm") ]) ]) ];
     geometry := {| geometry_type := "LineString";
                    coordinates := [ [3.5; 6.625; 0]; [3.390625; 6.4375; 0] ] |} |}.

Definition ferryData : FerryData :=
  {| jetties := sixJetties; routes := [routeIkoroduCms] |}.

End Sample.

(* ------------------------------------------------------------------ *)
(** ** Sample sends *)

Module ChatSample.

Import Chat.

Definition sampleState (input : string) : ChatState :=
  {| messages := []; inputText := input; loading := false;
     ferryData := Some Sample.ferryData;
     userLocation := None; locationPermissionGranted := false |}.

Definition sampleClock : Clock :=
  {| atSend := 1000; atNotice := 1001; atDenied := 1002; atReply := 2000 |}.

(** A body with one candidate that carries [body] as its text. *)
Definition replyBody (body : string) : JValue :=
  JObj [("candidates",
         JArr [JObj [("content", JObj [("parts", JArr [JObj [("text", JStr body)]])])]])].

(** A service that answers every prompt with the same body. *)
Definition answering (body : JValue) : Prompt -> Completion JValue :=
  fun _ => Normal body.

(** A service whose request fails. *)
Definition failing (reason : string) : Prompt -> Completion JValue :=
  fun _ => Throw reason.

Definition numberToString : float -> string := fun _ => "0".

End ChatSample.

(* ------------------------------------------------------------------ *)
(** * Properties *)

(** ** The embedding on small inputs *)

Module Examples.

Example split_ws_keeps_outer_pieces : split_ws "  to  CMS " = [""; "to"; "CMS"; ""].
Proof. reflexivity. Qed.

Example split_ws_of_empty : split_ws "" = [""].
Proof. reflexivity. Qed.

Example parseInt_reads_a_leading_number :
  parseInt "3rd" = Some 3%Z /\ parseInt "0x1f" = Some 31%Z /\ parseInt "2024" = Some 2024%Z.
Proof. repeat split; reflexivity. Qed.

Example parseInt_without_a_number :
  parseInt "fare" = None /\ parseInt "0xz" = None /\ parseInt "" = None.
Proof. repeat split; reflexivity. Qed.

Example trim_both_ends : trim "   Ebute Ero  " = "Ebute Ero".
Proof. reflexivity. Qed.

Example getKeywords_of_a_question :
  Keywords.getKeywords Keywords.specificTerms_baseline "What's the fare to CMS?"
  = ["whats"; "the"; "fare"; "cms"; "what's"; "cms?"].
Proof. vm_compute. reflexivity. Qed.

Example getKeywords_without_keywords :
  Keywords.getKeywords Keywords.specificTerms_baseline "is it on" = [].
Proof. vm_compute. reflexivity. Qed.

Example getKeywords_caps_at_ten :
  List.length
    (Keywords.getKeywords Keywords.specificTerms_location
       "alpha bravo charlie delta echo foxtrot golf hotel india juliet kilo lima") = 10.
Proof. vm_compute. reflexivity. Qed.

(** A bold marker inside a link label stays in the label as it is. *)
Example parseMarkdown_bold_inside_link :
  Markdown.parseMarkdown "[**Falomo**](https://x.test)"
  = Some [Markdown.mkSegment Markdown.link "**Falomo**" (Some "https://x.test")].
Proof. vm_compute. reflexivity. Qed.

Example parseMarkdown_drops_blank_text :
  Markdown.parseMarkdown "**a** **b**"
  = Some [Markdown.mkSegment Markdown.bold "a" None;
          Markdown.mkSegment Markdown.bold "b" None].
Proof. vm_compute. reflexivity. Qed.

Example filterDataByKeywords_through_operator :
  routes (Scoper.filtered (Scoper.filterDataByKeywords 8 ["n1500"] Sample.ferryData))
  = [Sample.routeIkoroduCms].
Proof. vm_compute. reflexivity. Qed.

Example findNearestJetties_names :
  map (fun r => lookup "name" (properties (Proximity.spread r)))
    (Proximity.findNearestJetties Sample.sin Sample.cos Sample.atan2 Sample.here
       Sample.sixJetties (Some 4%Z))
  = [JStr "CMS"; JStr "Ebute Ero"; JStr "Apapa"; JStr "Falomo"].
Proof. vm_compute. reflexivity. Qed.

(** [slice(0, -1)] drops the last element. *)
Example slice0_negative : slice0 [1; 2; 3; 4] (-1) = [1; 2; 3].
Proof. reflexivity. Qed.

End Examples.

(** ** Strings *)

Module StringFacts.

Lemma startsWith_iff (t s : string) :
  startsWith t s = true <-> exists after, s = (t ++ after)%string.
Proof.
  revert s; induction t as [|c t IH]; intros s; simpl.
  - split; [intros _; now exists s | intros _; reflexivity].
  - destruct s as [|d s].
    + split; [discriminate | intros [after H]; discriminate].
    + rewrite andb_true_iff, IH. split.
      * intros [Hcd [after H]]. apply Ascii.eqb_eq in Hcd. subst. now exists after.
      * intros [after H]. injection H as -> H. split; [apply Ascii.eqb_refl|].
        now exists after.
Qed.

Lemma includes_iff (s t : string) : includes s t = true <-> occursIn t s.
Proof.
  unfold occursIn. induction s as [|c s IH].
  - simpl. rewrite orb_false_r, startsWith_iff. split.
    + intros [after H]. now exists "", after.
    + intros [before [after H]]. destruct before; [now exists after | discriminate].
  - cbn [includes]. rewrite orb_true_iff, startsWith_iff, IH. split.
    + intros [[after H] | [before [after H]]].
      * now exists "", after.
      * exists (String c before), after. simpl. now rewrite H.
    + intros [before [after H]]. destruct before as [|d before].
      * left. now exists after.
      * right. injection H as _ H. now exists before, after.
Qed.

Lemma occursIn_empty (s : string) : occursIn "" s.
Proof. now exists "", s. Qed.

Lemma occursIn_app (t before after : string) :
  occursIn t (before ++ t ++ after)%string.
Proof. now exists before, after. Qed.

Lemma arrayIncludes_iff (l : list string) (w : string) :
  arrayIncludes l w = true <-> In w l.
Proof.
  unfold arrayIncludes. rewrite existsb_exists. split.
  - intros [x [Hx Heq]]. apply String.eqb_eq in Heq. now subst.
  - intros H. exists w. split; [assumption | apply String.eqb_refl].
Qed.

Lemma existsb_includes_iff (s : string) (terms : list string) :
  existsb (fun t => includes s t) terms = true <->
  exists t, In t terms /\ occursIn t s.
Proof.
  rewrite existsb_exists. split; intros [t [Hin H]]; exists t; split; auto;
    now apply includes_iff.
Qed.

End StringFacts.
Import StringFacts.

(** ** Query classifier *)

(** C4.  For every text the classifier answers true exactly when the
    lowercased text contains, as substrings and with no condition on
    order or token boundaries, one of "nearest", "near", "close",
    "closest", "around", "nearby" and one of "jetty", "jetties",
    "terminal", "stop", "station".  "What's the nearest jetty to me?" is
    a proximity query and "What's the fare to CMS?" is not. *)
Theorem isNearestJettyQuery_iff :
  (forall text : string,
      Classifier.isNearestJettyQuery text = true <->
      (exists nk, In nk ["nearest"; "near"; "close"; "closest"; "around"; "nearby"]
                  /\ occursIn nk (toLowerCase text)) /\
      (exists jk, In jk ["jetty"; "jetties"; "terminal"; "stop"; "station"]
                  /\ occursIn jk (toLowerCase text)))
  /\ Classifier.isNearestJettyQuery "What's the nearest jetty to me?" = true
  /\ Classifier.isNearestJettyQuery "What's the fare to CMS?" = false.
Proof.
  split; [|split; reflexivity].
  intros text. unfold Classifier.isNearestJettyQuery.
  rewrite andb_true_iff, !existsb_includes_iff. reflexivity.
Qed.

(** ** Arrays *)

Module ArrayFacts.

Lemma firstn_min_length {A : Type} (n : nat) (l : list A) :
  firstn (Nat.min n (List.length l)) l = firstn n l.
Proof.
  destruct (Nat.le_ge_cases n (List.length l)) as [H|H].
  - now rewrite Nat.min_l.
  - rewrite Nat.min_r by assumption. now rewrite firstn_all, firstn_all2.
Qed.

Lemma slice0_firstn {A : Type} (l : list A) (n : Z) :
  (0 <= n)%Z -> slice0 l n = firstn (Z.to_nat n) l.
Proof.
  intros Hn. unfold slice0.
  destruct (Z.ltb_spec n 0) as [H|_]; [lia|].
  rewrite Z2Nat.inj_min, Nat2Z.id. apply firstn_min_length.
Qed.

Lemma slice0_length {A : Type} (l : list A) (n : Z) :
  (0 <= n)%Z -> List.length (slice0 l n) = Nat.min (Z.to_nat n) (List.length l).
Proof.
  intros Hn. rewrite slice0_firstn by assumption. apply length_firstn.
Qed.

Lemma slice0_all {A : Type} (l : list A) (n : Z) :
  (Z.of_nat (List.length l) <= n)%Z -> slice0 l n = l.
Proof.
  intros Hn. rewrite slice0_firstn by lia. apply firstn_all2. lia.
Qed.

Lemma slice0_incl {A : Type} (l : list A) (n : Z) (x : A) :
  In x (slice0 l n) -> In x l.
Proof.
  unfold slice0. intros H. rewrite <- (firstn_skipn (Z.to_nat
    (if (n <? 0)%Z then Z.max (Z.of_nat (List.length l) + n) 0
     else Z.min n (Z.of_nat (List.length l)))) l).
  apply in_or_app. now left.
Qed.

Lemma filter_none {A : Type} (p : A -> bool) (l : list A) :
  (forall x, In x l -> p x = false) -> filter p l = [].
Proof.
  induction l as [|a l IH]; intros H; simpl; [reflexivity|].
  rewrite (H a) by now left. apply IH. intros x Hx. apply H. now right.
Qed.

Lemma filter_all {A : Type} (p : A -> bool) (l : list A) :
  (forall x, In x l -> p x = true) -> filter p l = l.
Proof.
  induction l as [|a l IH]; intros H; simpl; [reflexivity|].
  rewrite (H a) by now left. f_equal. apply IH. intros x Hx. apply H. now right.
Qed.

End ArrayFacts.
Import ArrayFacts.

(** ** Data scoper *)

Module ScoperFacts.

Import Scoper.

Lemma sample_path (MAX_ITEMS : Z) (data : FerryData) :
  filterDataByKeywords MAX_ITEMS [] data =
  {| filtered := {| jetties := firstn 3 (jetties data);
                    routes := firstn 3 (routes data) |};
     isSample := true |}.
Proof.
  unfold filterDataByKeywords. simpl.
  now rewrite !slice0_firstn by lia.
Qed.

Lemma filtered_path (MAX_ITEMS : Z) (keywords : list string) (data : FerryData) :
  keywords <> [] ->
  filterDataByKeywords MAX_ITEMS keywords data =
  {| filtered :=
       {| jetties := slice0 (filter (jettyMatches keywords) (jetties data)) MAX_ITEMS;
          routes := slice0 (filter (routeMatches keywords) (routes data)) MAX_ITEMS |};
     isSample := false |}.
Proof.
  intros H. unfold filterDataByKeywords.
  destruct keywords; [contradiction | reflexivity].
Qed.

(** A jetty matches when one of its string-valued properties, lowercased,
    contains one of the keywords. *)
Lemma jettyMatches_iff (keywords : list string) (jetty : JettyFeature) :
  jettyMatches keywords jetty = true <->
  exists key s kw,
    In (key, JStr s) (properties jetty) /\ In kw keywords /\
    occursIn kw (toLowerCase s).
Proof.
  unfold jettyMatches. simpl. rewrite existsb_exists. split.
  - intros [v [Hv Hm]]. apply in_map_iff in Hv as [[key v'] [Heq Hin]].
    simpl in Heq. subst v'. destruct v; try discriminate. simpl in Hm.
    apply existsb_includes_iff in Hm as [kw [Hkw Hocc]].
    now exists key, s, kw.
  - intros [key [s [kw [Hin [Hkw Hocc]]]]]. exists (JStr s). split.
    + apply in_map_iff. now exists (key, JStr s).
    + simpl. apply existsb_includes_iff. now exists kw.
Qed.

End ScoperFacts.

(** C6.  With the empty keyword list, both components return the first
    three jetties and the first three routes of the dataset in its own
    order, that is min(3, N) jetties and min(3, M) routes, marked as a
    sample. *)
Theorem filterDataByKeywords_empty_keywords :
  forall data : FerryData,
    let sampled :=
      {| Scoper.filtered := {| jetties := firstn 3 (jetties data);
                               routes := firstn 3 (routes data) |};
         Scoper.isSample := true |} in
    Baseline.filterDataByKeywords data [] = sampled
    /\ LocationAware.filterDataByKeywords data [] = sampled
    /\ List.length (jetties (Scoper.filtered sampled)) = Nat.min 3 (List.length (jetties data))
    /\ List.length (routes (Scoper.filtered sampled)) = Nat.min 3 (List.length (routes data)).
Proof.
  intros data sampled. unfold sampled.
  unfold Baseline.filterDataByKeywords, LocationAware.filterDataByKeywords.
  rewrite !ScoperFacts.sample_path. cbn [Scoper.filtered jetties routes].
  rewrite !length_firstn. auto.
Qed.

(** C5.  With a non-empty keyword list under which no jetty and no route
    of the dataset matches, both components return empty jetty and route
    lists marked as filtered ([isSample] false): there is no fall-back to
    the sample. *)
Theorem filterDataByKeywords_no_match :
  forall (data : FerryData) (keywords : list string),
    keywords <> [] ->
    (forall jetty, In jetty (jetties data) -> Scoper.jettyMatches keywords jetty = false) ->
    (forall route, In route (routes data) -> Scoper.routeMatches keywords route = false) ->
    let nothing :=
      {| Scoper.filtered := {| jetties := []; routes := [] |};
         Scoper.isSample := false |} in
    Baseline.filterDataByKeywords data keywords = nothing
    /\ LocationAware.filterDataByKeywords data keywords = nothing.
Proof.
  intros data keywords Hne Hj Hr nothing. unfold nothing.
  unfold Baseline.filterDataByKeywords, LocationAware.filterDataByKeywords.
  rewrite !ScoperFacts.filtered_path by assumption.
  rewrite (filter_none _ _ Hj), (filter_none _ _ Hr). split; reflexivity.
Qed.

Lemma filterDataByKeywords_no_match_witness :
  ["zanzibar"] <> []
  /\ Baseline.filterDataByKeywords Sample.ferryData ["zanzibar"]
     = {| Scoper.filtered := {| jetties := []; routes := [] |};
          Scoper.isSample := false |}.
Proof.
  assert (Hne : ["zanzibar"] <> []) by discriminate.
  assert (Hj : forall jetty, In jetty (jetties Sample.ferryData) ->
                 Scoper.jettyMatches ["zanzibar"] jetty = false).
  { intros jetty Hin. simpl in Hin.
    repeat (destruct Hin as [<-|Hin]; [vm_compute; reflexivity|]). contradiction. }
  assert (Hr : forall route, In route (routes Sample.ferryData) ->
                 Scoper.routeMatches ["zanzibar"] route = false).
  { intros route Hin. simpl in Hin.
    repeat (destruct Hin as [<-|Hin]; [vm_compute; reflexivity|]). contradiction. }
  split; [exact Hne|].
  exact (proj1 (filterDataByKeywords_no_match Sample.ferryData ["zanzibar"] Hne Hj Hr)).
Defined.

(** ** Markdown-subset renderer *)

Module MarkdownFacts.

Import Markdown.

Section ScanTerminates.

Variable matchAt : string -> option MatchResult.
Variable segmentOf : MatchResult -> TextSegment.
Hypothesis match_bounds :
  forall s m, matchAt s = Some m -> 0 < matchLength m <= String.length s.

Lemma searchFrom_index (pos : nat) (suffix : string) (index : nat) (m : MatchResult) :
  searchFrom matchAt pos suffix = Some (index, m) ->
  pos <= index /\ 0 < matchLength m /\
  index + matchLength m <= pos + String.length suffix.
Proof.
  revert pos. induction suffix as [|c r IH]; intros pos; simpl.
  - destruct (matchAt "") as [m'|] eqn:E; [|discriminate].
    intros H. injection H as <- <-. apply match_bounds in E. simpl in E. lia.
  - destruct (matchAt (String c r)) as [m'|] eqn:E.
    + intros H. injection H as <- <-. apply match_bounds in E. simpl in E. lia.
    + intros H. apply IH in H. lia.
Qed.

Lemma substringFrom_length (i : nat) (s : string) :
  String.length (substringFrom i s) = String.length s - i.
Proof.
  revert s. induction i as [|i IH]; intros s; simpl; [lia|].
  destruct s as [|c r]; simpl; [reflexivity | apply IH].
Qed.

(** The loop stops within the fuel [pass] gives it: every match moves
    [lastIndex] forward and stays inside the subject. *)
Lemma scanLoop_returns (fuel : nat) :
  forall (subject : string) (lastIndex : nat) (acc : list TextSegment),
    lastIndex <= String.length subject ->
    String.length subject < fuel + lastIndex ->
    exists segments, scanLoop matchAt segmentOf fuel subject lastIndex acc = Some segments.
Proof.
  induction fuel as [|fuel IH]; intros subject lastIndex acc Hle Hfuel; simpl.
  - lia.
  - unfold exec. destruct (String.length subject <? lastIndex) eqn:Hlen.
    + eauto.
    + destruct (searchFrom matchAt lastIndex (substringFrom lastIndex subject))
        as [[index m]|] eqn:E; [|eauto].
      apply searchFrom_index in E. rewrite substringFrom_length in E.
      apply IH; lia.
Qed.

Lemma pass_returns (segments : list TextSegment) :
  forall acc, exists newSegments, pass matchAt segmentOf segments acc = Some newSegments.
Proof.
  induction segments as [|seg rest IH]; intros acc; cbn [pass]; [eauto|].
  destruct (type seg); try apply IH.
  destruct (scanLoop_returns (S (String.length (content seg))) (content seg) 0 acc)
    as [pushed Hp]; [lia | lia |].
  rewrite Hp. apply IH.
Qed.

End ScanTerminates.

Ltac other_char c H :=
  destruct c as [[] [] [] [] [] [] [] []]; simpl in H; try discriminate H;
  exfalso; auto.

Lemma spanUntil_length (stop : ascii) (s : string) :
  String.length (fst (spanUntil stop s)) + String.length (snd (spanUntil stop s))
  = String.length s.
Proof.
  induction s as [|c r IH]; simpl; [reflexivity|].
  destruct (Ascii.eqb c stop); simpl; [reflexivity|].
  destruct (spanUntil stop r) as [run rest]. simpl in *. lia.
Qed.

Lemma matchLinkAt_bounds (s : string) (m : MatchResult) :
  matchLinkAt s = Some m -> 0 < matchLength m <= String.length s.
Proof.
  unfold matchLinkAt. intros H.
  destruct s as [|c r]; [discriminate|].
  destruct (Ascii.eqb_spec c "["); [subst c | now other_char c H].
  pose proof (spanUntil_length "]" r) as L1.
  destruct (spanUntil "]" r) as [label r1]. simpl in L1.
  destruct label as [|l0 label]; [discriminate|].
  destruct r1 as [|c1 r1]; [discriminate|].
  destruct (Ascii.eqb_spec c1 "]"); [subst c1 | now other_char c1 H].
  destruct r1 as [|c2 r2]; [discriminate|].
  destruct (Ascii.eqb_spec c2 "("); [subst c2 | now other_char c2 H].
  pose proof (spanUntil_length ")" r2) as L2.
  destruct (spanUntil ")" r2) as [target r3]. simpl in L2.
  destruct target as [|t0 target]; [discriminate|].
  destruct r3 as [|c3 r3]; [discriminate|].
  destruct (Ascii.eqb_spec c3 ")"); [subst c3 | now other_char c3 H].
  injection H as <-. simpl in *. lia.
Qed.

Lemma matchBoldAt_bounds (s : string) (m : MatchResult) :
  matchBoldAt s = Some m -> 0 < matchLength m <= String.length s.
Proof.
  unfold matchBoldAt. intros H.
  destruct s as [|c r]; [discriminate|].
  destruct (Ascii.eqb_spec c "*"); [subst c | now other_char c H].
  destruct r as [|c0 r]; [discriminate|].
  destruct (Ascii.eqb_spec c0 "*"); [subst c0 | now other_char c0 H].
  pose proof (spanUntil_length "*" r) as L1.
  destruct (spanUntil "*" r) as [inner r1]. simpl in L1.
  destruct inner as [|i0 inner]; [discriminate|].
  destruct r1 as [|c1 r1]; [discriminate|].
  destruct (Ascii.eqb_spec c1 "*"); [subst c1 | now other_char c1 H].
  destruct r1 as [|c2 r2]; [discriminate|].
  destruct (Ascii.eqb_spec c2 "*"); [subst c2 | now other_char c2 H].
  injection H as <-. simpl in *. lia.
Qed.

(** [parseMarkdown] returns on every input. *)
Lemma parseMarkdown_returns (input : string) :
  exists segments, parseMarkdown input = Some segments.
Proof.
  unfold parseMarkdown.
  destruct (pass_returns matchLinkAt linkSegment matchLinkAt_bounds
              [mkSegment text input None] []) as [links ->].
  destruct (pass_returns matchBoldAt boldSegment matchBoldAt_bounds links [])
    as [bolds ->].
  eauto.
Qed.

End MarkdownFacts.

(** C7.  [parseMarkdown] on "Visit **Ebute Ero** via [this link](https://x.test)"
    gives exactly four segments, in this order: plain "Visit ", bold
    "Ebute Ero", plain " via ", and the link labelled "this link" to
    "https://x.test". *)
Theorem parseMarkdown_example :
  Markdown.parseMarkdown "Visit **Ebute Ero** via [this link](https://x.test)" =
  Some [ Markdown.mkSegment Markdown.text "Visit " None;
         Markdown.mkSegment Markdown.bold "Ebute Ero" None;
         Markdown.mkSegment Markdown.text " via " None;
         Markdown.mkSegment Markdown.link "this link" (Some "https://x.test") ].
Proof. vm_compute. reflexivity. Qed.

(** ** Assistant orchestrator *)

Module ChatFacts.

Import Chat.

(** A send that passes the guard has a dataset. *)
Lemma sendRefused_false (st : ChatState) :
  sendRefused st = false ->
  String.eqb (trim (inputText st)) "" = false /\ loading st = false /\
  exists data, ferryData st = Some data.
Proof.
  unfold sendRefused. rewrite !orb_false_iff. intros [[H1 H2] H3].
  destruct (ferryData st) as [data|]; [eauto | discriminate].
Qed.

Section Response.

Variable Number_toString : float -> string.
Variable TypeError_message : string.

(** A body with a structured error makes the [try] block throw an error
    whose message embeds the service's own. *)
Lemma handleResponse_error (data : JValue) (err : JObject) (m : string) (now : Z) :
  get data "error" = JObj err ->
  lookup "message" err = JStr m ->
  handleResponse Number_toString TypeError_message data now =
  Throw ("Gemini API Error: "
         ++ (if String.eqb m "" then "An unknown API error occurred." else m)).
Proof.
  intros He Hm. unfold handleResponse.
  destruct data; try discriminate He. cbn [nullish].
  rewrite He. cbn [truthy get]. rewrite Hm. unfold orElse. cbn [truthy].
  destruct (String.eqb m ""); reflexivity.
Qed.

End Response.

End ChatFacts.

(** C8.  When the generation service answers a send with a body that
    holds a structured error, [{ error: { message: m } }], the baseline
    [sendMessage] appends, after the user's entry, one assistant-authored
    entry whose text contains [m], and the loading flag is false
    afterwards. *)
Theorem sendMessage_structured_error :
  forall (Number_toString : float -> string) (TypeError_message : string)
         (generationService : Chat.Prompt -> Chat.Completion JValue)
         (clock : Chat.Clock) (st : Chat.ChatState)
         (data : JValue) (err : JObject) (m : string),
    Chat.sendRefused st = false ->
    (forall prompt, generationService prompt = Chat.Normal data) ->
    get data "error" = JObj err ->
    lookup "message" err = JStr m ->
    let st' :=
      Baseline.sendMessage Number_toString TypeError_message generationService clock st in
    exists reply t,
      Chat.messages st' =
        Chat.messages st ++ [Chat.userMessage st (Chat.atSend clock); reply]
      /\ Chat.isUser reply = false
      /\ Chat.text reply = JStr t
      /\ occursIn m t
      /\ Chat.loading st' = false.
Proof.
  intros Number_toString TypeError_message generationService clock st data err m
    Hguard Hservice Herror Hmessage st'.
  subst st'. unfold Baseline.sendMessage, Chat.sendMessage_baseline.
  destruct (ChatFacts.sendRefused_false st Hguard) as [_ [_ [dataset Hdata]]].
  rewrite Hguard, Hdata, Hservice.
  rewrite (ChatFacts.handleResponse_error _ _ data err m _ Herror Hmessage).
  unfold Chat.settle. cbn.
  eexists. eexists. split.
  { rewrite <- app_assoc. reflexivity. }
  cbn. repeat split.
  destruct (String.eqb_spec m "") as [->|Hm].
  - apply occursIn_empty.
  - exists "Sorry, I can't answer right now. Error: Gemini API Error: ", " 🙏".
    reflexivity.
Qed.

Lemma sendMessage_structured_error_witness :
  let st :=
    {| Chat.messages := []; Chat.inputText := "What's the fare to CMS?";
       Chat.loading := false;
       Chat.ferryData := Some {| jetties := []; routes := [] |};
       Chat.userLocation := None; Chat.locationPermissionGranted := false |} in
  let clock := {| Chat.atSend := 1000; Chat.atNotice := 1000;
                  Chat.atDenied := 1000; Chat.atReply := 2000 |} in
  let service := fun _ : Chat.Prompt =>
    Chat.Normal (JObj [("error", JObj [("message", JStr "quota exceeded")])]) in
  let st' := Baseline.sendMessage (fun _ => "0") "" service clock st in
  exists reply t,
    Chat.messages st' =
      Chat.messages st ++ [Chat.userMessage st (Chat.atSend clock); reply]
    /\ Chat.isUser reply = false
    /\ Chat.text reply = JStr t
    /\ occursIn "quota exceeded" t
    /\ Chat.loading st' = false.
Proof.
  intros st clock service st'.
  apply (sendMessage_structured_error (fun _ => "0") "" service clock st
           (JObj [("error", JObj [("message", JStr "quota exceeded")])])
           [("message", JStr "quota exceeded")] "quota exceeded").
  - reflexivity.
  - intros prompt. reflexivity.
  - reflexivity.
  - reflexivity.
Defined.

(** ** Proximity ranking *)

Module ProximityFacts.

Import Proximity.

(** *** The sort: what holds for every comparator *)

Lemma insertSorted_perm (x : JettyWithDistance) (l : list JettyWithDistance) :
  Permutation (insertSorted x l) (x :: l).
Proof.
  induction l as [|y rest IH]; simpl; [apply Permutation_refl|].
  destruct (inOrder x y); [apply Permutation_refl|].
  apply perm_trans with (y :: x :: rest); [now apply perm_skip | apply perm_swap].
Qed.

Lemma sort_perm (l : list JettyWithDistance) : Permutation (sort l) l.
Proof.
  induction l as [|x rest IH]; simpl; [apply perm_nil|].
  apply perm_trans with (x :: sort rest); [apply insertSorted_perm | now apply perm_skip].
Qed.

(** *** The sort: what holds for a consistent comparator *)

Section Consistent.

(** The elements on which the comparator is known to be consistent. *)
Variable known : JettyWithDistance -> Prop.

Hypothesis inOrder_total :
  forall a b, known a -> known b -> inOrder a b = true \/ inOrder b a = true.

Hypothesis inOrder_trans :
  forall a b c, known a -> known b -> known c ->
    inOrder a b = true -> inOrder b c = true -> inOrder a c = true.

Lemma insertSorted_known (x : JettyWithDistance) (l : list JettyWithDistance) :
  known x -> Forall known l -> Forall known (insertSorted x l).
Proof.
  intros Hx Hl. apply (Permutation_Forall (x := x :: l)).
  - apply Permutation_sym, insertSorted_perm.
  - now constructor.
Qed.

Lemma sort_known (l : list JettyWithDistance) :
  Forall known l -> Forall known (sort l).
Proof.
  intros Hl. apply (Permutation_Forall (x := l)); [|assumption].
  apply Permutation_sym, sort_perm.
Qed.

Lemma insertSorted_sorted (x : JettyWithDistance) (l : list JettyWithDistance) :
  known x -> Forall known l ->
  StronglySorted before l -> StronglySorted before (insertSorted x l).
Proof.
  intros Hx. induction l as [|y rest IH]; intros Hl Hs; simpl.
  - constructor; constructor.
  - inversion Hl as [|? ? Hy Hrest]; subst.
    inversion Hs as [|? ? Hs' Hall]; subst.
    destruct (inOrder x y) eqn:Hxy.
    + constructor; [assumption|]. constructor; [exact Hxy|].
      rewrite Forall_forall in *. intros z Hz.
      apply (inOrder_trans x y z); auto. now apply Hall.
    + constructor; [now apply IH|].
      apply (Permutation_Forall (x := x :: rest)).
      * apply Permutation_sym, insertSorted_perm.
      * constructor; [|assumption].
        destruct (inOrder_total x y Hx Hy) as [H|H]; [congruence | exact H].
Qed.

Lemma sort_sorted (l : list JettyWithDistance) :
  Forall known l -> StronglySorted before (sort l).
Proof.
  induction l as [|x rest IH]; intros Hl; simpl; [constructor|].
  inversion Hl; subst.
  apply insertSorted_sorted; auto using sort_known.
Qed.

(** Stability: the elements that tie with [x] keep their input order. *)
Lemma insertSorted_stable (x a : JettyWithDistance) (l : list JettyWithDistance) :
  known x -> known a -> Forall known l ->
  filter (tie x) (insertSorted a l) = filter (tie x) (a :: l).
Proof.
  intros Hx Ha. induction l as [|y rest IH]; intros Hl; [reflexivity|].
  inversion Hl as [|? ? Hy Hrest]; subst.
  cbn [insertSorted]. destruct (inOrder a y) eqn:Hay; [reflexivity|].
  cbn [filter]. rewrite (IH Hrest). cbn [filter].
  destruct (tie x a) eqn:Ta; destruct (tie x y) eqn:Ty; try reflexivity.
  unfold tie in Ta, Ty. apply andb_true_iff in Ta as [Hxa Hax].
  apply andb_true_iff in Ty as [Hxy Hyx].
  rewrite (inOrder_trans a x y Ha Hx Hy Hax Hxy) in Hay. discriminate.
Qed.

Lemma sort_stable (x : JettyWithDistance) (l : list JettyWithDistance) :
  known x -> Forall known l ->
  filter (tie x) (sort l) = filter (tie x) l.
Proof.
  intros Hx. induction l as [|a rest IH]; intros Hl; [reflexivity|].
  inversion Hl; subst. cbn [sort].
  rewrite insertSorted_stable by auto using sort_known.
  cbn [filter]. now rewrite IH.
Qed.

End Consistent.

(** *** Ordinary distances *)

Local Open Scope float_scope.

Section Ordinary.

Variable D : list float.
Hypothesis D_ordinary : ordinary D = true.

Lemma ordinary_pair (a b : float) :
  In a D -> In b D ->
  (0 <? a - b) = (b <? a) /\ (a <=? b) = negb (b <? a) /\
  ((a <=? b) = true \/ (b <=? a) = true) /\
  forall c, In c D -> (a <=? b) = true -> (b <=? c) = true -> (a <=? c) = true.
Proof.
  intros Ha Hb. unfold ordinary in D_ordinary.
  rewrite forallb_forall in D_ordinary. specialize (D_ordinary _ Ha).
  rewrite forallb_forall in D_ordinary. specialize (D_ordinary _ Hb).
  apply andb_true_iff in D_ordinary as [H123 H4].
  apply andb_true_iff in H123 as [H12 H3].
  apply andb_true_iff in H12 as [H1 H2].
  apply Bool.eqb_prop in H1, H2. apply orb_true_iff in H3.
  repeat split; auto.
  intros c Hc Hab Hbc. rewrite forallb_forall in H4. specialize (H4 _ Hc).
  now rewrite Hab, Hbc in H4.
Qed.

Lemma ordinary_inOrder (a b : JettyWithDistance) :
  In (distance a) D -> In (distance b) D ->
  inOrder a b = (distance a <=? distance b).
Proof.
  intros Ha Hb. destruct (ordinary_pair _ _ Ha Hb) as [H1 [H2 _]].
  unfold inOrder, compareFn. now rewrite H1, H2.
Qed.

Lemma ordinary_total (a b : JettyWithDistance) :
  In (distance a) D -> In (distance b) D ->
  inOrder a b = true \/ inOrder b a = true.
Proof.
  intros Ha Hb. rewrite (ordinary_inOrder a b Ha Hb), (ordinary_inOrder b a Hb Ha).
  now destruct (ordinary_pair _ _ Ha Hb) as [_ [_ [H3 _]]].
Qed.

Lemma ordinary_trans (a b c : JettyWithDistance) :
  In (distance a) D -> In (distance b) D -> In (distance c) D ->
  inOrder a b = true -> inOrder b c = true -> inOrder a c = true.
Proof.
  intros Ha Hb Hc.
  rewrite (ordinary_inOrder a b), (ordinary_inOrder b c), (ordinary_inOrder a c) by assumption.
  destruct (ordinary_pair _ _ Ha Hb) as [_ [_ [_ H4]]]. now apply H4.
Qed.

End Ordinary.

(** *** Slices *)

Lemma slice0_split {A : Type} (l : list A) (n : Z) :
  exists k, slice0 l n = firstn k l.
Proof. unfold slice0. eauto. Qed.

Lemma StronglySorted_app_inv {A : Type} (R : A -> A -> Prop) (l1 l2 : list A) :
  StronglySorted R (l1 ++ l2) ->
  StronglySorted R l1 /\ forall a b, In a l1 -> In b l2 -> R a b.
Proof.
  induction l1 as [|x l1 IH]; simpl; intros H.
  - split; [constructor | contradiction].
  - inversion H as [|? ? Hs Hall]; subst. destruct (IH Hs) as [IH1 IH2].
    rewrite Forall_app in Hall. destruct Hall as [Hl1 Hl2]. split.
    + now constructor.
    + intros a b [<-|Ha] Hb; [|now apply IH2].
      rewrite Forall_forall in Hl2. now apply Hl2.
Qed.

End ProximityFacts.

Module RankingFacts.

Import Proximity ProximityFacts.

Lemma StronglySorted_weaken {A : Type} (R R' : A -> A -> Prop) (l : list A) :
  (forall a b, In a l -> In b l -> R a b -> R' a b) ->
  StronglySorted R l -> StronglySorted R' l.
Proof.
  induction l as [|x l IH]; intros Himp Hs; [constructor|].
  inversion Hs as [|? ? Hs' Hall]; subst. constructor.
  - apply IH; [|assumption]. intros a b Ha Hb. apply Himp; now right.
  - rewrite Forall_forall in *. intros y Hy. apply Himp; [now left | now right | auto].
Qed.

Section Ranked.

Variable Math_sin : float -> float.
Variable Math_cos : float -> float.
Variable Math_atan2 : float -> float -> float.
Variable userLocation : UserLocation.
Variable jetties : list JettyFeature.

Let ranked : list JettyWithDistance :=
  map (withDistance Math_sin Math_cos Math_atan2 userLocation) jetties.

Let known (r : JettyWithDistance) : Prop := In (distance r) (map distance ranked).

Lemma ranked_known (l : list JettyWithDistance) :
  Permutation l ranked -> forall r, In r l -> known r.
Proof.
  intros Hp r Hr. unfold known. apply in_map.
  now apply (Permutation_in _ Hp).
Qed.

Hypothesis distances_ordinary : ordinary (map distance ranked) = true.

Lemma sorted_ranked :
  Permutation (sort ranked) ranked
  /\ StronglySorted nearerOrEqual (sort ranked)
  /\ forall x, In x ranked ->
       filter (sameDistance x) (sort ranked) = filter (sameDistance x) ranked.
Proof.
  pose proof (sort_perm ranked) as Hperm.
  assert (Hknown : Forall known ranked).
  { rewrite Forall_forall. apply ranked_known, Permutation_refl. }
  assert (Htotal := ordinary_total _ distances_ordinary).
  assert (Htrans := ordinary_trans _ distances_ordinary).
  split; [exact Hperm|]. split.
  - apply (StronglySorted_weaken before).
    + intros a b Ha Hb. unfold before, nearerOrEqual.
      now rewrite (ordinary_inOrder _ distances_ordinary a b)
        by (apply in_map; now apply (Permutation_in _ Hperm)).
    + now apply (sort_sorted known Htotal Htrans).
  - intros x Hx.
    assert (Htie : forall l, (forall r, In r l -> known r) ->
                     filter (sameDistance x) l = filter (tie x) l).
    { intros l Hl. apply filter_ext_in. intros r Hr. unfold sameDistance, tie.
      assert (Kx : In (distance x) (map distance ranked)) by now apply in_map.
      assert (Kr : In (distance r) (map distance ranked)) by now apply Hl.
      now rewrite (ordinary_inOrder _ distances_ordinary x r),
                  (ordinary_inOrder _ distances_ordinary r x) by assumption. }
    rewrite (Htie (sort ranked)) by (apply ranked_known; exact Hperm).
    rewrite (Htie ranked) by (apply ranked_known, Permutation_refl).
    apply (sort_stable known Htrans); [|assumption].
    now apply in_map.
Qed.

End Ranked.

End RankingFacts.





(** ** Keyword extractor *)

Module KeywordFacts.

Import Keywords.

(** *** Characters *)

Ltac by_cases_on c :=
  destruct c as [[] [] [] [] [] [] [] []]; try reflexivity; try discriminate.

Lemma lowerAlnum_lower (c : ascii) : isLowerAlnum c = true -> charToLower c = c.
Proof. by_cases_on c. Qed.

Lemma lowerAlnum_not_space (c : ascii) : isLowerAlnum c = true -> isWhiteSpace c = false.
Proof. by_cases_on c. Qed.

Lemma space_lower (c : ascii) : isWhiteSpace (charToLower c) = isWhiteSpace c.
Proof. by_cases_on c. Qed.

Lemma digit_upper (c : ascii) : isDigit c = true -> Ascii.eqb c (charToUpper c) = true.
Proof. by_cases_on c. Qed.

Lemma lowerAlnum_cases (c : ascii) :
  isLowerAlnum c = true -> isDigit c = negb (isLowerAZ c).
Proof. by_cases_on c. Qed.

(** *** Strings *)

Lemma allChars_filterChars (p : ascii -> bool) (s : string) :
  allChars p (filterChars p s) = true.
Proof.
  induction s as [|c r IH]; simpl; [reflexivity|].
  destruct (p c) eqn:E; simpl; [now rewrite E|assumption].
Qed.

Lemma filterChars_id (p : ascii -> bool) (s : string) :
  allChars p s = true -> filterChars p s = s.
Proof.
  induction s as [|c r IH]; simpl; [reflexivity|].
  intros H. apply andb_true_iff in H as [Hc Hr]. now rewrite Hc, IH.
Qed.

Lemma toLowerCase_id (s : string) :
  allChars isLowerAlnum s = true -> toLowerCase s = s.
Proof.
  induction s as [|c r IH]; simpl; [reflexivity|].
  intros H. apply andb_true_iff in H as [Hc Hr].
  unfold toLowerCase in *. simpl. now rewrite lowerAlnum_lower, IH.
Qed.

Lemma toLowerCase_app (a b : string) :
  toLowerCase (a ++ b) = (toLowerCase a ++ toLowerCase b)%string.
Proof.
  unfold toLowerCase. induction a as [|c r IH]; simpl; [reflexivity|]. now rewrite IH.
Qed.

Lemma startsWithWhiteSpace_lower (s : string) :
  startsWithWhiteSpace (toLowerCase s) = startsWithWhiteSpace s.
Proof. destruct s; simpl; [reflexivity | apply space_lower]. Qed.

(** Lowercasing and splitting commute. *)
Lemma split_ws_lower (s : string) :
  split_ws (toLowerCase s) = map toLowerCase (split_ws s).
Proof.
  induction s as [|c r IH]; [reflexivity|].
  change (toLowerCase (String c r)) with (String (charToLower c) (toLowerCase r)).
  cbn [split_ws]. rewrite space_lower, startsWithWhiteSpace_lower, IH.
  destruct (isWhiteSpace c).
  - destruct (startsWithWhiteSpace r); reflexivity.
  - destruct (split_ws r); reflexivity.
Qed.

Lemma lowerAlnum_noWhiteSpace (s : string) :
  allChars isLowerAlnum s = true -> noWhiteSpace s = true.
Proof.
  unfold noWhiteSpace. induction s as [|c r IH]; simpl; [reflexivity|].
  intros H. apply andb_true_iff in H as [Hc Hr].
  now rewrite lowerAlnum_not_space, IH.
Qed.

Lemma split_ws_token_then (k s : string) :
  noWhiteSpace k = true -> startsWithWhiteSpace s = false ->
  split_ws (k ++ " " ++ s) = k :: split_ws s.
Proof.
  unfold noWhiteSpace. intros Hk Hs. induction k as [|c r IH].
  - simpl. now rewrite Hs.
  - simpl in Hk. apply andb_true_iff in Hk as [Hc Hr].
    apply negb_true_iff in Hc.
    change ((String c r ++ " " ++ s)%string) with (String c (r ++ " " ++ s)).
    cbn [split_ws]. now rewrite Hc, IH.
Qed.

Lemma split_ws_token (k : string) :
  noWhiteSpace k = true -> split_ws k = [k].
Proof.
  unfold noWhiteSpace. induction k as [|c r IH]; [reflexivity|].
  simpl. intros Hk. apply andb_true_iff in Hk as [Hc Hr].
  apply negb_true_iff in Hc. now rewrite Hc, IH.
Qed.

Lemma join_cons (k k' : string) (rest : list string) :
  join " " (k :: k' :: rest) = (k ++ " " ++ join " " (k' :: rest))%string.
Proof. reflexivity. Qed.

(** Joining tokens with spaces and splitting again gives the tokens. *)
Lemma split_ws_join (K : list string) :
  K <> [] ->
  Forall (fun k => k <> "" /\ noWhiteSpace k = true) K ->
  split_ws (join " " K) = K.
Proof.
  induction K as [|k rest IH]; intros Hne HK; [contradiction|].
  inversion HK as [|? ? [Hk1 Hk2] Hrest]; subst.
  destruct rest as [|k' rest].
  - simpl. now apply split_ws_token.
  - rewrite join_cons, split_ws_token_then; [|assumption|].
    + f_equal. apply IH; [discriminate | assumption].
    + inversion Hrest as [|? ? [Hk'1 Hk'2] _]; subst.
      destruct k' as [|c r]; [contradiction|].
      destruct rest; simpl; unfold noWhiteSpace in Hk'2; simpl in Hk'2;
        apply andb_true_iff in Hk'2 as [Hc _]; now apply negb_true_iff in Hc.
Qed.

Lemma toLowerCase_join (K : list string) :
  Forall (fun k => toLowerCase k = k) K ->
  toLowerCase (join " " K) = join " " K.
Proof.
  induction K as [|k rest IH]; intros HK; [reflexivity|].
  inversion HK; subst. destruct rest as [|k' rest]; [assumption|].
  rewrite join_cons, !toLowerCase_app, IH by assumption. now f_equal.
Qed.

(** *** [parseInt] on a token *)

Lemma readDigits_counts (p : ascii -> bool) (radix : Z) (s : string) :
  forall acc n, exists v m, readDigits p radix acc (S n) s = (v, S m).
Proof.
  induction s as [|c r IH]; intros acc n; simpl; [eauto|].
  destruct (p c); [apply IH | eauto].
Qed.

Ltac count_digits :=
  match goal with
  | |- context [readDigits ?p ?r ?a (S ?n) ?s] =>
      let v := fresh "v" in
      let m := fresh "m" in
      destruct (readDigits_counts p r s a n) as [v [m ->]]
  end.

(** [parseInt] on a string that opens with neither white space nor a sign. *)
Lemma parseInt_unsigned (c : ascii) (w : string) :
  isLowerAlnum c = true ->
  parseInt (String c w) =
  let '(v, len) :=
    if hasHexPrefix (String c w)
    then readDigits isHexDigit 16 0 0 (substringFrom 2 (String c w))
    else readDigits isDigit 10 0 0 (String c w) in
  match len with
  | O => None
  | S _ => Some (1 * v)%Z
  end.
Proof.
  intros Hc.
  assert (Hdrop : dropWhile isWhiteSpace (String c w) = String c w)
    by (cbn [dropWhile]; now rewrite lowerAlnum_not_space).
  assert (Hsign :
    (match String c w with
     | String "-" r => ((-1)%Z, r)
     | String "+" r => (1%Z, r)
     | _ => (1%Z, String c w)
     end) = (1%Z, String c w)).
  { revert Hc. clear. by_cases_on c. }
  unfold parseInt. now rewrite Hdrop, Hsign.
Qed.

(** On a token of [a-z0-9], [parseInt] is [NaN] exactly when the token
    does not open with a number. *)
Lemma parseInt_token (w : string) :
  allChars isLowerAlnum w = true ->
  isNaN (parseInt w) = negb (numberLeading w).
Proof.
  destruct w as [|c w]; [reflexivity|].
  intros H. cbn [allChars] in H. apply andb_true_iff in H as [Hc Hw].
  rewrite (parseInt_unsigned c w Hc).
  destruct (Ascii.eqb_spec c "0") as [->|Hzero].
  - destruct w as [|d w]; [reflexivity|].
    destruct (Ascii.eqb_spec d "x") as [->|Hx].
    + change (hasHexPrefix (String "0" (String "x" w))) with true.
      cbn [substringFrom numberLeading].
      destruct w as [|e w]; [reflexivity|]. cbn [readDigits].
      destruct (isHexDigit e); [count_digits|]; reflexivity.
    + assert (Hlead : numberLeading (String "0" (String d w)) = true)
        by (by_cases_on d; exfalso; auto).
      assert (Hhex : hasHexPrefix (String "0" (String d w)) = false)
        by (by_cases_on d; exfalso; auto).
      rewrite Hlead, Hhex. cbn [readDigits].
      change (isDigit "0") with true. cbv iota.
      count_digits. destruct (isDigit d); reflexivity.
  - assert (Hlead : numberLeading (String c w) = isDigit c)
      by (by_cases_on c; exfalso; auto).
    assert (Hhex : hasHexPrefix (String c w) = false)
      by (by_cases_on c; exfalso; auto).
    rewrite Hlead, Hhex. cbn [readDigits].
    destruct (isDigit c); [count_digits|]; reflexivity.
Qed.

(** *** Tokens *)

Lemma words_plain (text w : string) :
  In w (words text) -> plainToken w = true.
Proof.
  unfold words, plainToken. rewrite filter_In, in_map_iff.
  intros [[x [<- _]] Hlen]. now rewrite allChars_filterChars.
Qed.

Lemma retained_iff (specificTerms : list string) (w : string) :
  allChars isLowerAlnum w = true ->
  retained specificTerms w = true <-> In w specificTerms \/ numberLeading w = false.
Proof.
  intros Hw. unfold retained.
  rewrite orb_true_iff, arrayIncludes_iff, (parseInt_token w Hw), negb_true_iff.
  reflexivity.
Qed.

Lemma letterLeading_not_number (w : string) :
  letterLeading w = true -> numberLeading w = false.
Proof.
  destruct w as [|c w]; [discriminate|]. simpl letterLeading.
  by_cases_on c.
Qed.

Lemma purelyNumeric_number (w : string) :
  purelyNumeric w = true -> numberLeading w = true.
Proof.
  unfold purelyNumeric. destruct w as [|c w]; [discriminate|].
  cbn [negb String.eqb allChars andb]. intros H.
  apply andb_true_iff in H as [Hc Hw].
  destruct (Ascii.eqb_spec c "0") as [->|Hzero].
  - destruct w as [|d w]; [reflexivity|].
    cbn [allChars] in Hw. apply andb_true_iff in Hw as [Hd _].
    revert Hd. clear. by_cases_on d.
  - revert Hc Hzero. clear. by_cases_on c; intros _ H; exfalso; auto.
Qed.

Lemma number_starts_with_digit (w : string) :
  allChars isLowerAlnum w = true -> numberLeading w = true ->
  match w with
  | String c _ => isDigit c = true
  | EmptyString => False
  end.
Proof.
  destruct w as [|c w]; [discriminate|]. intros _.
  destruct (Ascii.eqb_spec c "0") as [->|Hzero]; [reflexivity|].
  revert Hzero. clear. by_cases_on c; intros H; exfalso; auto.
Qed.

End KeywordFacts.

(** C1 (as amended).  A lowercased, stripped token of at least three
    characters is kept by the token pass exactly when it is in the
    vocabulary list or [parseInt] finds no number at its start: it does not
    begin with a decimal digit, or it begins with "0x" and no hexadecimal
    digit follows.  Hence a token that begins with a letter is kept, and a
    purely numeric token outside the vocabulary is dropped; so is one that
    only begins with a digit.  The list is any [specificTerms], those of
    the two components included. *)
Theorem foundKeywords_retention :
  forall (specificTerms : list string) (text word : string),
    In word (Keywords.words text) ->
    (In word (Keywords.foundKeywords specificTerms text) <->
       In word specificTerms \/ Keywords.numberLeading word = false)
    /\ (Keywords.letterLeading word = true -> Keywords.numberLeading word = false)
    /\ (Keywords.purelyNumeric word = true -> Keywords.numberLeading word = true).
Proof.
  intros specificTerms text word Hword.
  pose proof (KeywordFacts.words_plain text word Hword) as Hplain.
  unfold Keywords.plainToken in Hplain. apply andb_true_iff in Hplain as [Hchars _].
  split; [|split].
  - unfold Keywords.foundKeywords. rewrite filter_In.
    rewrite (KeywordFacts.retained_iff specificTerms word Hchars). tauto.
  - apply KeywordFacts.letterLeading_not_number.
  - apply KeywordFacts.purelyNumeric_number.
Qed.

Lemma foundKeywords_retention_witness :
  In "fare" (Keywords.words "What's the fare in 2024?")
  /\ (In "fare" (Keywords.foundKeywords Keywords.specificTerms_baseline
                   "What's the fare in 2024?") <->
        In "fare" Keywords.specificTerms_baseline \/ Keywords.numberLeading "fare" = false)
  /\ Keywords.numberLeading "fare" = false
  /\ In "2024" (Keywords.words "What's the fare in 2024?")
  /\ Keywords.numberLeading "2024" = true.
Proof.
  assert (Hfare : In "fare" (Keywords.words "What's the fare in 2024?"))
    by (vm_compute; tauto).
  assert (Hyear : In "2024" (Keywords.words "What's the fare in 2024?"))
    by (vm_compute; tauto).
  pose proof (foundKeywords_retention Keywords.specificTerms_baseline
                "What's the fare in 2024?" "fare" Hfare) as [Hiff [Hletter _]].
  pose proof (foundKeywords_retention Keywords.specificTerms_baseline
                "What's the fare in 2024?" "2024" Hyear) as [_ [_ Hnumeric]].
  split; [exact Hfare|]. split; [exact Hiff|].
  split; [exact (Hletter eq_refl)|]. split; [exact Hyear | exact (Hnumeric eq_refl)].
Defined.

(** C1 as it was stated fails on a token that mixes digits and letters:
    "3rd", taken from "(3rd)", is not purely numeric, and neither
    component keeps it, in the token pass or in the final list. *)
Lemma foundKeywords_mixed_token_counterexample :
  In "3rd" (Keywords.words "(3rd)")
  /\ Keywords.purelyNumeric "3rd" = false
  /\ ~ (In "3rd" (Keywords.foundKeywords Baseline.specificTerms "(3rd)") <->
          In "3rd" Baseline.specificTerms \/ Keywords.purelyNumeric "3rd" = false)
  /\ ~ (In "3rd" (Keywords.foundKeywords LocationAware.specificTerms "(3rd)") <->
          In "3rd" LocationAware.specificTerms \/ Keywords.purelyNumeric "3rd" = false)
  /\ Baseline.getKeywords "(3rd)" = ["(3rd)"]
  /\ LocationAware.getKeywords "(3rd)" = ["(3rd)"].
Proof.
  split; [vm_compute; tauto|]. split; [reflexivity|].
  split; [|split; [|split; reflexivity]].
  - intros [_ H]. specialize (H (or_intror eq_refl)). vm_compute in H. exact H.
  - intros [_ H]. specialize (H (or_intror eq_refl)). vm_compute in H. exact H.
Qed.

Module IdempotenceFacts.

Import Keywords KeywordFacts.

(** *** The set of seen keywords *)

Lemma setAdd_seen (seen : list string) (x : string) :
  In x seen -> setAdd seen x = seen.
Proof.
  intros H. unfold setAdd. apply arrayIncludes_iff in H. now rewrite H.
Qed.

Lemma setAdd_fresh (seen : list string) (x : string) :
  ~ In x seen -> setAdd seen x = seen ++ [x].
Proof.
  intros H. unfold setAdd. destruct (arrayIncludes seen x) eqn:E; [|reflexivity].
  apply arrayIncludes_iff in E. contradiction.
Qed.

Lemma add_known (l : list string) :
  forall seen, (forall x, In x l -> In x seen) -> fold_left setAdd l seen = seen.
Proof.
  induction l as [|x rest IH]; intros seen H; simpl; [reflexivity|].
  rewrite setAdd_seen by (apply H; now left).
  apply IH. intros y Hy. apply H. now right.
Qed.

Lemma add_fresh (l : list string) :
  forall seen, NoDup (seen ++ l) -> fold_left setAdd l seen = seen ++ l.
Proof.
  induction l as [|x rest IH]; intros seen H; simpl; [now rewrite app_nil_r|].
  assert (Hx : ~ In x seen).
  { apply NoDup_remove_2 in H. intros Hin. apply H. apply in_or_app. now left. }
  rewrite setAdd_fresh by assumption.
  rewrite IH; rewrite <- app_assoc; [reflexivity | exact H].
Qed.

(** What a run of insertions appends: entries of [l] that were not seen,
    without repetition, and after it every entry of [l] is seen. *)
Lemma add_appends (l : list string) :
  forall seen,
    exists added,
      fold_left setAdd l seen = seen ++ added
      /\ (forall x, In x added -> In x l /\ ~ In x seen)
      /\ (forall x, In x l -> In x (seen ++ added))
      /\ (NoDup seen -> NoDup (seen ++ added)).
Proof.
  induction l as [|x rest IH]; intros seen; simpl.
  - exists []. rewrite app_nil_r. repeat split; auto; contradiction.
  - destruct (in_dec string_dec x seen) as [Hin|Hout].
    + rewrite setAdd_seen by assumption.
      destruct (IH seen) as [added [Heq [Hnew [Hall Hnd]]]].
      exists added. repeat split; auto.
      * right. now apply Hnew.
      * now apply Hnew.
      * intros y [<-|Hy]; [apply in_or_app; now left | now apply Hall].
    + rewrite setAdd_fresh by assumption.
      destruct (IH (seen ++ [x])) as [added [Heq [Hnew [Hall Hnd]]]].
      exists (x :: added). rewrite Heq, <- app_assoc. repeat split.
      * destruct H as [<-|H]; [now left | right; now apply Hnew].
      * destruct H as [<-|H]; [assumption|].
        intros Hy. apply Hnew in H as [_ H]. apply H. apply in_or_app. now left.
      * intros y [<-|Hy].
        -- apply in_or_app. right. now left.
        -- specialize (Hall y Hy). now rewrite <- app_assoc in Hall.
      * intros Hs. rewrite <- app_assoc in Hnd. apply Hnd.
        apply NoDup_app; [assumption | repeat constructor; auto |].
        intros y Hy [<-|[]]. contradiction.
Qed.

Lemma NoDup_firstn {A : Type} (n : nat) (l : list A) : NoDup l -> NoDup (firstn n l).
Proof.
  intros H. rewrite <- (firstn_skipn n l) in H. now apply NoDup_app_remove_r in H.
Qed.

Lemma In_firstn {A : Type} (n : nat) (l : list A) (x : A) : In x (firstn n l) -> In x l.
Proof.
  intros H. rewrite <- (firstn_skipn n l). apply in_or_app. now left.
Qed.

(** *** The shape of an extracted list *)

(** The extracted list is made of entries of the token pass followed by
    entries that only the capitalized-word pass supplies; it has no
    repetition and at most ten entries. *)
Lemma getKeywords_shape (specificTerms : list string) (text : string) :
  exists fromTokens fromCapitals,
    getKeywords specificTerms text = fromTokens ++ fromCapitals
    /\ NoDup (fromTokens ++ fromCapitals)
    /\ List.length (fromTokens ++ fromCapitals) <= 10
    /\ (forall k, In k fromTokens -> In k (foundKeywords specificTerms text))
    /\ (forall k, In k fromCapitals ->
          In k (capitalizedWords text) /\ ~ In k (foundKeywords specificTerms text)).
Proof.
  unfold getKeywords, uniqueInOrder.
  rewrite slice0_firstn by lia. rewrite fold_left_app.
  destruct (add_appends (foundKeywords specificTerms text) [])
    as [U [HU [HUnew [HUall HUnd]]]].
  simpl in HU, HUall, HUnd. rewrite HU.
  destruct (add_appends (capitalizedWords text) U) as [R [HR [HRnew [HRall HRnd]]]].
  rewrite HR, firstn_app.
  exists (firstn (Z.to_nat 10) U), (firstn (Z.to_nat 10 - List.length U) R).
  split; [reflexivity|]. split; [|split; [|split]].
  - rewrite <- firstn_app. apply NoDup_firstn, HRnd, HUnd. constructor.
  - rewrite <- firstn_app. apply firstn_le_length.
  - intros k Hk. apply In_firstn in Hk. now apply HUnew.
  - intros k Hk. apply In_firstn in Hk. apply HRnew in Hk as [Hc Hn].
    split; [assumption|]. intros Hf. apply Hn. now apply HUall.
Qed.

(** A plain token among the capitalized words is a token of the token
    pass too. *)
Lemma capitalized_plain_is_word (text k : string) :
  In k (capitalizedWords text) -> plainToken k = true -> In k (words text).
Proof.
  unfold capitalizedWords, words, plainToken.
  rewrite in_map_iff, filter_In, andb_true_iff.
  intros [raw [<- Hraw]] [Hchars Hlen]. apply filter_In in Hraw as [Hraw _].
  split; [|assumption]. apply in_map_iff.
  exists (toLowerCase raw). split; [now apply filterChars_id|].
  rewrite split_ws_lower. now apply in_map.
Qed.

Lemma plain_dropped_startsUpper (specificTerms : list string) (k : string) :
  plainToken k = true -> retained specificTerms k = false -> startsUpper k = true.
Proof.
  unfold plainToken. rewrite andb_true_iff. intros [Hchars Hlen] Hret.
  assert (Hnum : numberLeading k = true).
  { destruct (numberLeading k) eqn:E; [reflexivity|].
    rewrite (proj2 (retained_iff specificTerms k Hchars)) in Hret; [discriminate|].
    now right. }
  pose proof (number_starts_with_digit k Hchars Hnum) as Hdigit.
  unfold startsUpper. destruct k as [|c r]; [contradiction|].
  rewrite (digit_upper c Hdigit), andb_true_r.
  apply Nat.ltb_lt in Hlen. apply Nat.ltb_lt. lia.
Qed.

End IdempotenceFacts.




(* ------------------------------------------------------------------ *)
(** * Further properties *)

Module MoreStringFacts.

Lemma append_assoc (a b c : string) : ((a ++ b) ++ c = a ++ (b ++ c))%string.
Proof. induction a as [|x a IH]; simpl; [reflexivity | now rewrite IH]. Qed.

Lemma append_empty_r (a : string) : (a ++ "")%string = a.
Proof. induction a as [|x a IH]; simpl; [reflexivity | now rewrite IH]. Qed.

Lemma append_length (a b : string) :
  String.length (a ++ b) = String.length a + String.length b.
Proof. induction a as [|x a IH]; simpl; [reflexivity | now rewrite IH]. Qed.

Lemma occursIn_trans (a b s : string) : occursIn a b -> occursIn b s -> occursIn a s.
Proof.
  intros [p [q ->]] [p' [q' ->]]. exists (p' ++ p)%string, (q ++ q')%string.
  now rewrite !append_assoc.
Qed.

Lemma allChars_app (p : ascii -> bool) (a b : string) :
  allChars p (a ++ b) = allChars p a && allChars p b.
Proof.
  induction a as [|x a IH]; simpl; [reflexivity|]. now rewrite IH, andb_assoc.
Qed.

Lemma allChars_occursIn (p : ascii -> bool) (t s : string) :
  occursIn t s -> allChars p s = true -> allChars p t = true.
Proof.
  intros [before [after ->]]. rewrite !allChars_app, !andb_true_iff. tauto.
Qed.

Lemma toLowerCase_length (s : string) : String.length (toLowerCase s) = String.length s.
Proof.
  unfold toLowerCase. induction s as [|c r IH]; simpl; [reflexivity | now rewrite IH].
Qed.

Lemma toLowerCase_no_upper (s : string) :
  allChars (fun c => negb (isUpperAZ c)) (toLowerCase s) = true.
Proof.
  unfold toLowerCase. induction s as [|c r IH]; simpl; [reflexivity|].
  rewrite IH, andb_true_r. destruct c as [[] [] [] [] [] [] [] []]; reflexivity.
Qed.

Lemma toLowerCase_idempotent (s : string) : toLowerCase (toLowerCase s) = toLowerCase s.
Proof.
  unfold toLowerCase. induction s as [|c r IH]; simpl; [reflexivity|].
  rewrite IH. f_equal. destruct c as [[] [] [] [] [] [] [] []]; reflexivity.
Qed.

End MoreStringFacts.

(** ** Map screen *)


(** ** Jetty filter drawer *)

Module DrawerFacts.

Import FilterDrawer.

Lemma insertString_perm (x : string) (l : list string) :
  Permutation (insertString x l) (x :: l).
Proof.
  induction l as [|y rest IH]; simpl; [apply Permutation_refl|].
  destruct (String.ltb y x); [|apply Permutation_refl].
  apply perm_trans with (y :: x :: rest); [now apply perm_skip | apply perm_swap].
Qed.

Lemma sortStrings_perm (l : list string) : Permutation (sortStrings l) l.
Proof.
  induction l as [|x rest IH]; simpl; [apply perm_nil|].
  apply perm_trans with (x :: sortStrings rest);
    [apply insertString_perm | now apply perm_skip].
Qed.

Lemma ltb_leb (a b : string) : String.ltb a b = true -> String.leb a b = true.
Proof. unfold String.ltb, String.leb. now destruct (String.compare a b). Qed.

Lemma not_ltb_leb (a b : string) : String.ltb a b = false -> String.leb b a = true.
Proof.
  unfold String.ltb, String.leb. rewrite (String.compare_antisym b a).
  now destruct (String.compare a b).
Qed.

Lemma insertString_sorted (x : string) (l : list string) :
  Sorted ascending l -> Sorted ascending (insertString x l).
Proof.
  induction l as [|y rest IH]; intros Hs; simpl.
  - repeat constructor.
  - inversion Hs as [|? ? Hrest Hhd]; subst.
    destruct (String.ltb y x) eqn:E.
    + constructor; [now apply IH|].
      destruct rest as [|z rest]; simpl.
      * constructor. now apply ltb_leb.
      * destruct (String.ltb z x); constructor.
        -- now inversion Hhd.
        -- now apply ltb_leb.
    + constructor; [assumption|]. constructor. now apply not_ltb_leb.
Qed.

Lemma sortStrings_sorted (l : list string) : Sorted ascending (sortStrings l).
Proof.
  induction l as [|x rest IH]; simpl; [constructor | now apply insertString_sorted].
Qed.

Lemma uniqueInOrder_spec (l : list string) :
  NoDup (uniqueInOrder l) /\ forall x, In x (uniqueInOrder l) <-> In x l.
Proof.
  unfold uniqueInOrder.
  destruct (IdempotenceFacts.add_appends l []) as [added [Heq [Hnew [Hall Hnd]]]].
  rewrite Heq. simpl in *. split; [apply Hnd; constructor|].
  intros x. split; [intros H; now apply Hnew | apply Hall].
Qed.

Section Drawer.

Variable jetties : list JettyFeature.

Lemma uniqueLGAs_NoDup : NoDup (uniqueLGAs jetties).
Proof.
  unfold uniqueLGAs.
  apply (Permutation_NoDup (Permutation_sym (sortStrings_perm _))).
  apply uniqueInOrder_spec.
Qed.

Lemma uniqueLGAs_In (x : string) :
  In x (uniqueLGAs jetties) <-> exists j, In j jetties /\ LGA (properties j) = x.
Proof.
  unfold uniqueLGAs. split.
  - intros H. apply (Permutation_in _ (sortStrings_perm _)) in H.
    apply (proj1 (proj2 (uniqueInOrder_spec _) x)) in H.
    apply in_map_iff in H as [j [Hj Hin]]. eauto.
  - intros [j [Hin Hj]].
    apply (Permutation_in _ (Permutation_sym (sortStrings_perm _))).
    apply (proj2 (proj2 (uniqueInOrder_spec _) x)). apply in_map_iff. eauto.
Qed.

End Drawer.

End DrawerFacts.


(** X3.  With every option selected, as at the start and after a reset, the
    drawer keeps exactly the jetties whose [charter_services] is "Yes" or
    "No": a jetty with any other value there is filtered out although no
    filter is switched off. *)
Theorem applyFilters_all_selected :
  forall (jetties : list FilterDrawer.JettyFeature) (sel : FilterDrawer.Selection),
    let yesOrNo := fun j =>
      String.eqb (FilterDrawer.charter_services (FilterDrawer.properties j)) "Yes"
      || String.eqb (FilterDrawer.charter_services (FilterDrawer.properties j)) "No" in
    FilterDrawer.applyFilters jetties (FilterDrawer.initialSelection jetties)
    = filter yesOrNo jetties
    /\ FilterDrawer.applyFilters jetties (FilterDrawer.resetFilters jetties sel)
       = filter yesOrNo jetties.
Proof.
  intros jetties sel yesOrNo.
  assert (H : FilterDrawer.applyFilters jetties (FilterDrawer.initialSelection jetties)
              = filter yesOrNo jetties).
  { unfold FilterDrawer.applyFilters. apply filter_ext_in. intros j Hj.
    cbn [FilterDrawer.selectedLGAs FilterDrawer.selectedCharterServices
         FilterDrawer.initialSelection].
    assert (Hl : arrayIncludes (FilterDrawer.uniqueLGAs jetties)
                   (FilterDrawer.LGA (FilterDrawer.properties j)) = true).
    { apply arrayIncludes_iff, DrawerFacts.uniqueLGAs_In. eauto. }
    rewrite Hl. unfold yesOrNo. simpl. now rewrite orb_false_r. }
  split; [exact H | exact H].
Qed.

Module ToggleFacts.

Import FilterDrawer.

Lemma toggle_In (x : string) (prev : list string) (y : string) :
  In y (toggle x prev) <-> (y = x /\ ~ In x prev) \/ (y <> x /\ In y prev).
Proof.
  unfold toggle. destruct (arrayIncludes prev x) eqn:E.
  - apply arrayIncludes_iff in E. rewrite filter_In, negb_true_iff, String.eqb_neq.
    split; [intros [H1 H2]; now right | intros [[_ H]|[H1 H2]]; [contradiction | now split]].
  - assert (Hx : ~ In x prev).
    { intros H. apply arrayIncludes_iff in H. congruence. }
    rewrite in_app_iff. simpl. split.
    + intros [H|[<-|[]]]; [right; split; [intros ->; contradiction | assumption] | now left].
    + intros [[-> _]|[_ H]]; [right; now left | now left].
Qed.

Lemma toggle_NoDup (x : string) (prev : list string) :
  NoDup prev -> NoDup (toggle x prev).
Proof.
  intros H. unfold toggle. destruct (arrayIncludes prev x) eqn:E.
  - now apply NoDup_filter.
  - apply NoDup_app; [assumption | repeat constructor; auto |].
    intros y Hy [<-|[]]. apply arrayIncludes_iff in Hy. congruence.
Qed.

Lemma toggle_incl (x : string) (prev options : list string) :
  In x options -> incl prev options -> incl (toggle x prev) options.
Proof.
  intros Hx Hprev y Hy. apply toggle_In in Hy as [[-> _]|[_ Hy]]; auto.
Qed.

Lemma filter_split_length {A : Type} (p : A -> bool) (l : list A) :
  List.length l = List.length (filter p l) + List.length (filter (fun x => negb (p x)) l).
Proof.
  induction l as [|a l IH]; simpl; [reflexivity|].
  destruct (p a); simpl; lia.
Qed.

(** Among distinct options, the selected ones and the unselected ones add
    up. *)
Lemma selected_plus_unselected (options selected : list string) :
  NoDup options -> NoDup selected -> incl selected options ->
  List.length options =
  List.length selected
  + List.length (filter (fun o => negb (arrayIncludes selected o)) options).
Proof.
  intros Ho Hs Hincl.
  rewrite (filter_split_length (arrayIncludes selected) options). f_equal.
  apply Permutation_length, NoDup_Permutation; [now apply NoDup_filter | assumption |].
  intros o. rewrite filter_In, arrayIncludes_iff. split; [tauto | auto].
Qed.

Lemma all_selected_iff (options selected : list string) :
  NoDup options -> NoDup selected -> incl selected options ->
  (List.length selected = List.length options <-> incl options selected).
Proof.
  intros Ho Hs Hincl. split.
  - intros Hlen. apply NoDup_length_incl; [assumption | lia | assumption].
  - intros Hall. apply Nat.le_antisymm; now apply NoDup_incl_length.
Qed.

Lemma charterOptions_NoDup : NoDup charterOptions.
Proof.
  unfold charterOptions. repeat constructor; simpl; intuition discriminate.
Qed.

Lemma initial_tidy (jetties : list JettyFeature) : tidy jetties (initialSelection jetties).
Proof.
  repeat split; simpl; auto using DrawerFacts.uniqueLGAs_NoDup, charterOptions_NoDup,
    incl_refl.
Qed.

Lemma press_tidy (jetties : list JettyFeature) (sel : Selection) (p : Press) :
  pressable jetties p -> tidy jetties sel -> tidy jetties (press jetties sel p).
Proof.
  intros Hp [H1 [H2 [H3 H4]]]. destruct p; simpl in *.
  - repeat split; simpl; auto using toggle_NoDup, toggle_incl.
  - repeat split; simpl; auto using toggle_NoDup, toggle_incl.
  - repeat split; simpl; auto.
    + destruct (_ =? _); [constructor | apply DrawerFacts.uniqueLGAs_NoDup].
    + destruct (_ =? _); [apply incl_nil_l | apply incl_refl].
  - repeat split; simpl; auto.
    + destruct (_ =? _); [constructor | apply charterOptions_NoDup].
    + destruct (_ =? _); [apply incl_nil_l | apply incl_refl].
  - apply initial_tidy.
Qed.

Lemma presses_tidy (jetties : list JettyFeature) (presses : list Press) :
  forall sel, Forall (pressable jetties) presses -> tidy jetties sel ->
    tidy jetties (fold_left (press jetties) presses sel).
Proof.
  induction presses as [|p rest IH]; intros sel Hp Hs; simpl; [assumption|].
  inversion Hp; subst. apply IH; [assumption | now apply press_tidy].
Qed.

End ToggleFacts.

(** X4.  Pressing an option flips that option and no other: afterwards it
    is selected exactly when it was not before, and every other option is
    as it was; pressing it twice leaves the same options selected. *)
Theorem toggle_flips_one_option :
  forall (x : string) (prev : list string) (y : string),
    (In y (FilterDrawer.toggle x prev) <->
       (y = x /\ ~ In x prev) \/ (y <> x /\ In y prev))
    /\ (In y (FilterDrawer.toggle x (FilterDrawer.toggle x prev)) <-> In y prev).
Proof.
  intros x prev y. split; [apply ToggleFacts.toggle_In|].
  rewrite !ToggleFacts.toggle_In.
  destruct (string_dec y x) as [->|Hne]; destruct (in_dec string_dec x prev); tauto.
Qed.

(** X5.  Whatever sequence of options and buttons is pressed, starting
    from the initial state, each selection list holds distinct values of
    its option list, and [getFilterCount] is the number of options that
    are not selected (never negative). *)
Theorem drawer_selection_invariant :
  forall (jetties : list FilterDrawer.JettyFeature) (presses : list FilterDrawer.Press),
    Forall (FilterDrawer.pressable jetties) presses ->
    let sel :=
      fold_left (FilterDrawer.press jetties) presses (FilterDrawer.initialSelection jetties) in
    NoDup (FilterDrawer.selectedLGAs sel)
    /\ incl (FilterDrawer.selectedLGAs sel) (FilterDrawer.uniqueLGAs jetties)
    /\ NoDup (FilterDrawer.selectedCharterServices sel)
    /\ incl (FilterDrawer.selectedCharterServices sel) FilterDrawer.charterOptions
    /\ FilterDrawer.getFilterCount jetties sel
       = Z.of_nat (List.length (FilterDrawer.unselected jetties sel)).
Proof.
  intros jetties presses Hp sel.
  destruct (ToggleFacts.presses_tidy jetties presses _ Hp (ToggleFacts.initial_tidy jetties))
    as [H1 [H2 [H3 H4]]].
  fold sel in H1, H2, H3, H4. repeat split; try assumption.
  pose proof (ToggleFacts.selected_plus_unselected _ _
                (DrawerFacts.uniqueLGAs_NoDup jetties) H1 H2) as HL.
  pose proof (ToggleFacts.selected_plus_unselected _ _
                ToggleFacts.charterOptions_NoDup H3 H4) as HC.
  unfold FilterDrawer.getFilterCount, FilterDrawer.unselected.
  rewrite length_app.
  destruct (Z.eqb_spec
              (Z.of_nat (List.length (FilterDrawer.selectedLGAs sel)
                         + List.length (FilterDrawer.selectedCharterServices sel)))
              (Z.of_nat (List.length (FilterDrawer.uniqueLGAs jetties)
                         + List.length FilterDrawer.charterOptions))); lia.
Qed.

Lemma drawer_selection_invariant_witness :
  let presses :=
    [ FilterDrawer.PressLGA "Ikorodu"; FilterDrawer.PressCharterService "No";
      FilterDrawer.PressSelectAllLGAs; FilterDrawer.PressLGA "Apapa" ] in
  Forall (FilterDrawer.pressable FilterDrawer.sampleJetties) presses
  /\ FilterDrawer.getFilterCount FilterDrawer.sampleJetties
       (fold_left (FilterDrawer.press FilterDrawer.sampleJetties) presses
          (FilterDrawer.initialSelection FilterDrawer.sampleJetties))
     = Z.of_nat
         (List.length
            (FilterDrawer.unselected FilterDrawer.sampleJetties
               (fold_left (FilterDrawer.press FilterDrawer.sampleJetties) presses
                  (FilterDrawer.initialSelection FilterDrawer.sampleJetties)))).
Proof.
  intros presses.
  assert (H : Forall (FilterDrawer.pressable FilterDrawer.sampleJetties) presses).
  { unfold presses. repeat constructor; vm_compute; tauto. }
  split; [exact H|].
  exact (proj2 (proj2 (proj2 (proj2
           (drawer_selection_invariant FilterDrawer.sampleJetties presses H))))).
Defined.

(** X6.  In a state reached by pressing, the "select all" label of the LGA
    section empties the selection exactly when every LGA is selected, and
    then no jetty is left; otherwise it selects every LGA. *)
Theorem selectAllLGAs_after_presses :
  forall (jetties : list FilterDrawer.JettyFeature) (presses : list FilterDrawer.Press),
    Forall (FilterDrawer.pressable jetties) presses ->
    let sel :=
      fold_left (FilterDrawer.press jetties) presses (FilterDrawer.initialSelection jetties) in
    (incl (FilterDrawer.uniqueLGAs jetties) (FilterDrawer.selectedLGAs sel) ->
       FilterDrawer.selectedLGAs (FilterDrawer.selectAllLGAs jetties sel) = []
       /\ FilterDrawer.applyFilters jetties (FilterDrawer.selectAllLGAs jetties sel) = [])
    /\ (~ incl (FilterDrawer.uniqueLGAs jetties) (FilterDrawer.selectedLGAs sel) ->
          FilterDrawer.selectedLGAs (FilterDrawer.selectAllLGAs jetties sel)
          = FilterDrawer.uniqueLGAs jetties).
Proof.
  intros jetties presses Hp sel.
  destruct (ToggleFacts.presses_tidy jetties presses _ Hp (ToggleFacts.initial_tidy jetties))
    as [H1 [H2 _]].
  fold sel in H1, H2.
  pose proof (ToggleFacts.all_selected_iff _ _ (DrawerFacts.uniqueLGAs_NoDup jetties) H1 H2)
    as Hall.
  unfold FilterDrawer.selectAllLGAs. cbn [FilterDrawer.selectedLGAs]. split.
  - intros Hincl. apply Hall in Hincl. apply Nat.eqb_eq in Hincl. rewrite Hincl.
    split; [reflexivity|]. unfold FilterDrawer.applyFilters.
    apply filter_none. intros j _. reflexivity.
  - intros Hnot. destruct (Nat.eqb_spec (List.length (FilterDrawer.selectedLGAs sel))
                             (List.length (FilterDrawer.uniqueLGAs jetties))) as [E|E];
      [|reflexivity].
    exfalso. apply Hnot. now apply Hall.
Qed.

Lemma selectAllLGAs_after_presses_witness :
  let presses := [ FilterDrawer.PressLGA "Ikorodu"; FilterDrawer.PressLGA "Ikorodu" ] in
  Forall (FilterDrawer.pressable FilterDrawer.sampleJetties) presses
  /\ incl (FilterDrawer.uniqueLGAs FilterDrawer.sampleJetties)
       (FilterDrawer.selectedLGAs
          (fold_left (FilterDrawer.press FilterDrawer.sampleJetties) presses
             (FilterDrawer.initialSelection FilterDrawer.sampleJetties)))
  /\ FilterDrawer.applyFilters FilterDrawer.sampleJetties
       (FilterDrawer.selectAllLGAs FilterDrawer.sampleJetties
          (fold_left (FilterDrawer.press FilterDrawer.sampleJetties) presses
             (FilterDrawer.initialSelection FilterDrawer.sampleJetties))) = [].
Proof.
  intros presses.
  assert (H : Forall (FilterDrawer.pressable FilterDrawer.sampleJetties) presses).
  { unfold presses. repeat constructor; vm_compute; tauto. }
  assert (Hall : incl (FilterDrawer.uniqueLGAs FilterDrawer.sampleJetties)
                   (FilterDrawer.selectedLGAs
                      (fold_left (FilterDrawer.press FilterDrawer.sampleJetties) presses
                         (FilterDrawer.initialSelection FilterDrawer.sampleJetties)))).
  { intros x Hx. vm_compute in Hx. vm_compute. tauto. }
  split; [exact H|]. split; [exact Hall|].
  exact (proj2 (proj1 (selectAllLGAs_after_presses FilterDrawer.sampleJetties presses H)
                  Hall)).
Defined.

(** ** Keyword extractor, further *)

Module ExtractorFacts.

Import Keywords KeywordFacts.

(** The pieces of a split hold no white space. *)
Lemma split_ws_noWhiteSpace (s : string) :
  Forall (fun piece => noWhiteSpace piece = true) (split_ws s).
Proof.
  unfold noWhiteSpace. induction s as [|c r IH]; simpl; [repeat constructor|].
  destruct (isWhiteSpace c) eqn:Hc.
  - destruct (startsWithWhiteSpace r); [assumption | now constructor].
  - destruct (split_ws r) as [|piece pieces]; [repeat constructor; simpl; now rewrite Hc|].
    inversion IH; subst. constructor; [|assumption]. simpl. now rewrite Hc.
Qed.

Lemma toLowerCase_noWhiteSpace (s : string) :
  noWhiteSpace (toLowerCase s) = noWhiteSpace s.
Proof.
  unfold noWhiteSpace, toLowerCase. induction s as [|c r IH]; simpl; [reflexivity|].
  now rewrite IH, space_lower.
Qed.

Lemma filterChars_length (p : ascii -> bool) (s : string) :
  String.length (filterChars p s) <= String.length s.
Proof.
  induction s as [|c r IH]; simpl; [lia|]. destruct (p c); simpl; lia.
Qed.

(** Every entry of the extracted list comes from one of the two passes. *)
Lemma getKeywords_from_passes (specificTerms : list string) (text k : string) :
  In k (getKeywords specificTerms text) ->
  In k (foundKeywords specificTerms text) \/ In k (capitalizedWords text).
Proof.
  destruct (IdempotenceFacts.getKeywords_shape specificTerms text)
    as [K1 [K2 [HK [_ [_ [H1 H2]]]]]].
  rewrite HK, in_app_iff. intros [H|H]; [left; now apply H1 | right; now apply H2].
Qed.

Lemma foundKeywords_entry (specificTerms : list string) (text k : string) :
  In k (foundKeywords specificTerms text) ->
  toLowerCase k = k /\ noWhiteSpace k = true /\ 3 <= String.length k.
Proof.
  unfold foundKeywords. rewrite filter_In. intros [Hw _].
  apply words_plain in Hw. unfold plainToken in Hw.
  apply andb_true_iff in Hw as [Hc Hl]. apply Nat.ltb_lt in Hl.
  auto using toLowerCase_id, lowerAlnum_noWhiteSpace.
Qed.

Lemma capitalizedWords_entry (text k : string) :
  In k (capitalizedWords text) ->
  toLowerCase k = k /\ noWhiteSpace k = true /\ 2 <= String.length k.
Proof.
  unfold capitalizedWords. rewrite in_map_iff.
  intros [raw [<- Hraw]]. apply filter_In in Hraw as [Hin Hup].
  pose proof (split_ws_noWhiteSpace text) as Hall. rewrite Forall_forall in Hall.
  unfold startsUpper in Hup. apply andb_true_iff in Hup as [Hlen _].
  apply Nat.ltb_lt in Hlen.
  rewrite MoreStringFacts.toLowerCase_idempotent, toLowerCase_noWhiteSpace,
    MoreStringFacts.toLowerCase_length.
  auto.
Qed.

End ExtractorFacts.

(** X7.  The extracted keyword list never has more than ten entries and
    never repeats one. *)
Theorem getKeywords_at_most_ten_distinct :
  forall (specificTerms : list string) (text : string),
    List.length (Keywords.getKeywords specificTerms text) <= 10
    /\ NoDup (Keywords.getKeywords specificTerms text).
Proof.
  intros specificTerms text.
  destruct (IdempotenceFacts.getKeywords_shape specificTerms text)
    as [K1 [K2 [HK [Hnd [Hlen _]]]]].
  rewrite HK. auto.
Qed.


(** X9.  Nothing is lost but to the cap: an entry that either pass produces
    is in the extracted list unless the list is full, with ten entries. *)
Theorem getKeywords_complete_up_to_cap :
  forall (specificTerms : list string) (text k : string),
    In k (Keywords.foundKeywords specificTerms text) \/ In k (Keywords.capitalizedWords text) ->
    In k (Keywords.getKeywords specificTerms text)
    \/ List.length (Keywords.getKeywords specificTerms text) = 10.
Proof.
  intros specificTerms text k Hk. unfold Keywords.getKeywords, uniqueInOrder.
  set (L := Keywords.foundKeywords specificTerms text ++ Keywords.capitalizedWords text).
  destruct (IdempotenceFacts.add_appends L []) as [U [HU [_ [Hall _]]]].
  rewrite HU. simpl app in *. rewrite slice0_firstn by lia.
  destruct (Nat.le_gt_cases (List.length U) 10) as [Hle|Hgt].
  - left. rewrite firstn_all2 by exact Hle. apply Hall. unfold L. now apply in_or_app.
  - right. rewrite length_firstn. change (Z.to_nat 10) with 10. lia.
Qed.

Lemma getKeywords_complete_up_to_cap_witness :
  (In "fare" (Keywords.foundKeywords Baseline.specificTerms "Fare to CMS?")
   \/ In "fare" (Keywords.capitalizedWords "Fare to CMS?"))
  /\ (In "fare" (Keywords.getKeywords Baseline.specificTerms "Fare to CMS?")
      \/ List.length (Keywords.getKeywords Baseline.specificTerms "Fare to CMS?") = 10).
Proof.
  assert (H : In "fare" (Keywords.foundKeywords Baseline.specificTerms "Fare to CMS?")
              \/ In "fare" (Keywords.capitalizedWords "Fare to CMS?"))
    by (left; vm_compute; tauto).
  split; [exact H|].
  exact (getKeywords_complete_up_to_cap Baseline.specificTerms "Fare to CMS?" "fare" H).
Defined.



(** ** Data scoper, further *)

Module MatchFacts.

Import Scoper ScoperWords.

Lemma fields_match_iff (keywords : list string) (fields : JObject) :
  existsb (valueMatches keywords) (Object_values (JObj fields)) = true <->
  fieldMatch keywords fields.
Proof.
  unfold fieldMatch. simpl. rewrite existsb_exists. split.
  - intros [v [Hv Hm]]. apply in_map_iff in Hv as [[key v'] [Heq Hin]].
    simpl in Heq. subst v'. destruct v; try discriminate. simpl in Hm.
    apply existsb_includes_iff in Hm as [kw [Hkw Hocc]].
    now exists key, s, kw.
  - intros [key [s [kw [Hin [Hkw Hocc]]]]]. exists (JStr s). split.
    + apply in_map_iff. now exists (key, JStr s).
    + simpl. apply existsb_includes_iff. now exists kw.
Qed.

Lemma fieldMatch_nil (keywords : list string) : ~ fieldMatch keywords [].
Proof. intros [key [s [kw [[] _]]]]. Qed.

(** The test on one side of the operator, for details that are an object
    or missing. *)
Lemma details_match_iff (keywords : list string) (details : JValue) :
  objectOrMissing details ->
  (truthy details && existsb (valueMatches keywords) (Object_values details) = true <->
   fieldMatch keywords (fieldsOf details)).
Proof.
  intros [->|[fields ->]].
  - simpl. split; [discriminate | intros H; now apply fieldMatch_nil in H].
  - cbn [truthy fieldsOf andb]. apply fields_match_iff.
Qed.

Lemma valueMatches_upper (kw : string) (v : JValue) :
  hasUpperCase kw = true -> valueMatches [kw] v = false.
Proof.
  unfold hasUpperCase. rewrite negb_true_iff. intros Hup.
  destruct v; try reflexivity. simpl. rewrite orb_false_r.
  destruct (includes (toLowerCase s) kw) eqn:E; [|reflexivity].
  apply includes_iff in E.
  rewrite (MoreStringFacts.allChars_occursIn _ kw (toLowerCase s) E) in Hup;
    [discriminate | apply MoreStringFacts.toLowerCase_no_upper].
Qed.

Lemma existsb_none {A : Type} (p : A -> bool) (l : list A) :
  (forall x, p x = false) -> existsb p l = false.
Proof. intros H. induction l as [|a l IH]; simpl; [reflexivity | now rewrite H, IH]. Qed.

End MatchFacts.

(** X11.  With a non-empty keyword list, the baseline component returns at
    most 15 jetties and 15 routes and the location-aware one at most 8 of
    each, namely the first 8 of the baseline's; every jetty returned is a
    jetty of the dataset with a string property that, lowercased,
    contains a keyword, every route returned is a matching route of the
    dataset, and when no more than 8 jetties match, every matching jetty is
    returned by both. *)
Theorem filterDataByKeywords_capped_and_sound :
  forall (data : FerryData) (keywords : list string),
    keywords <> [] ->
    let base := Scoper.filtered (Baseline.filterDataByKeywords data keywords) in
    let aware := Scoper.filtered (LocationAware.filterDataByKeywords data keywords) in
    (List.length (jetties base) <= 15 /\ List.length (routes base) <= 15
     /\ List.length (jetties aware) <= 8 /\ List.length (routes aware) <= 8)
    /\ (jetties aware = firstn 8 (jetties base) /\ routes aware = firstn 8 (routes base))
    /\ (forall j, In j (jetties base) ->
          In j (jetties data) /\ ScoperWords.fieldMatch keywords (properties j))
    /\ (forall r, In r (routes base) ->
          In r (routes data) /\ Scoper.routeMatches keywords r = true)
    /\ (List.length (filter (Scoper.jettyMatches keywords) (jetties data)) <= 8 ->
        forall j, In j (jetties data) -> ScoperWords.fieldMatch keywords (properties j) ->
          In j (jetties aware) /\ In j (jetties base)).
Proof.
  intros data keywords Hne base aware. subst base aware.
  unfold Baseline.filterDataByKeywords, LocationAware.filterDataByKeywords.
  rewrite !ScoperFacts.filtered_path by assumption.
  cbn [Scoper.filtered jetties routes].
  unfold Baseline.MAX_ITEMS, LocationAware.MAX_ITEMS.
  rewrite !slice0_firstn by lia.
  change (Z.to_nat 15) with 15. change (Z.to_nat 8) with 8.
  split; [|split; [|split; [|split]]].
  - repeat split; apply firstn_le_length.
  - rewrite !firstn_firstn. split; reflexivity.
  - intros j Hj. apply IdempotenceFacts.In_firstn in Hj. apply filter_In in Hj as [Hin Hm].
    split; [assumption|]. now apply MatchFacts.fields_match_iff.
  - intros r Hr. apply IdempotenceFacts.In_firstn in Hr. now apply filter_In in Hr.
  - intros Hfew j Hin Hm. rewrite !firstn_all2 by lia.
    assert (In j (filter (Scoper.jettyMatches keywords) (jetties data))).
    { apply filter_In. split; [assumption|]. now apply MatchFacts.fields_match_iff. }
    auto.
Qed.

Lemma filterDataByKeywords_capped_and_sound_witness :
  ["ikorodu"] <> []
  /\ List.length
       (jetties (Scoper.filtered (Baseline.filterDataByKeywords Sample.ferryData ["ikorodu"])))
     <= 15.
Proof.
  assert (H : ["ikorodu"] <> []) by discriminate.
  split; [exact H|].
  exact (proj1 (proj1 (filterDataByKeywords_capped_and_sound Sample.ferryData
                         ["ikorodu"] H))).
Defined.

(** X12.  Values are lowercased before the comparison and keywords are
    not: a keyword with an upper-case letter matches no record, and the
    result for it alone is empty and marked as filtered. *)
Theorem filterDataByKeywords_upper_case_keyword :
  forall (data : FerryData) (kw : string),
    ScoperWords.hasUpperCase kw = true ->
    let nothing :=
      {| Scoper.filtered := {| jetties := []; routes := [] |};
         Scoper.isSample := false |} in
    Baseline.filterDataByKeywords data [kw] = nothing
    /\ LocationAware.filterDataByKeywords data [kw] = nothing.
Proof.
  intros data kw Hup nothing. subst nothing.
  assert (Hnone : forall l, existsb (Scoper.valueMatches [kw]) l = false).
  { intros l. apply MatchFacts.existsb_none. intros v.
    now apply MatchFacts.valueMatches_upper. }
  unfold Baseline.filterDataByKeywords, LocationAware.filterDataByKeywords.
  rewrite !ScoperFacts.filtered_path by discriminate.
  rewrite (filter_none (Scoper.jettyMatches [kw]) (jetties data)),
          (filter_none (Scoper.routeMatches [kw]) (routes data)).
  - split; reflexivity.
  - intros r _. unfold Scoper.routeMatches. rewrite !Hnone, !andb_false_r. reflexivity.
  - intros j _. unfold Scoper.jettyMatches. apply Hnone.
Qed.

Lemma filterDataByKeywords_upper_case_keyword_witness :
  ScoperWords.hasUpperCase "Ikorodu" = true
  /\ Baseline.filterDataByKeywords Sample.ferryData ["Ikorodu"]
     = {| Scoper.filtered := {| jetties := []; routes := [] |};
          Scoper.isSample := false |}.
Proof.
  assert (H : ScoperWords.hasUpperCase "Ikorodu" = true) by reflexivity.
  split; [exact H|].
  exact (proj1 (filterDataByKeywords_upper_case_keyword Sample.ferryData "Ikorodu" H)).
Defined.

(** X13.  For a route whose operator details are, on each side, an object
    or missing, the route matches exactly when a string property of the
    route itself, of its public operator details or of its private
    operator details contains, lowercased, one of the keywords. *)
Theorem routeMatches_iff :
  forall (keywords : list string) (route : RouteFeature),
    ScoperWords.objectOrMissing (ScoperWords.operatorDetails "Public" route) ->
    ScoperWords.objectOrMissing (ScoperWords.operatorDetails "Private" route) ->
    (Scoper.routeMatches keywords route = true <->
     ScoperWords.fieldMatch keywords (properties route)
     \/ ScoperWords.fieldMatch keywords
          (ScoperWords.fieldsOf (ScoperWords.operatorDetails "Public" route))
     \/ ScoperWords.fieldMatch keywords
          (ScoperWords.fieldsOf (ScoperWords.operatorDetails "Private" route))).
Proof.
  intros keywords route Hpub Hpriv.
  rewrite <- (MatchFacts.fields_match_iff keywords (properties route)).
  rewrite <- (MatchFacts.details_match_iff keywords _ Hpub).
  rewrite <- (MatchFacts.details_match_iff keywords _ Hpriv).
  unfold Scoper.routeMatches, ScoperWords.operatorDetails.
  destruct (existsb (Scoper.valueMatches keywords) (Object_values (JObj (properties route))));
    [tauto|].
  destruct (truthy (optGet (lookup "operator" (properties route)) "Public")
            && existsb (Scoper.valueMatches keywords)
                 (Object_values (optGet (lookup "operator" (properties route)) "Public")));
    [tauto|].
  destruct (truthy (optGet (lookup "operator" (properties route)) "Private")
            && existsb (Scoper.valueMatches keywords)
                 (Object_values (optGet (lookup "operator" (properties route)) "Private")));
    [tauto|].
  split; [discriminate | intros [H|[H|H]]; discriminate].
Qed.

Lemma routeMatches_iff_witness :
  ScoperWords.objectOrMissing (ScoperWords.operatorDetails "Public" Sample.routeIkoroduCms)
  /\ ScoperWords.objectOrMissing (ScoperWords.operatorDetails "Private" Sample.routeIkoroduCms)
  /\ Scoper.routeMatches ["n1500"] Sample.routeIkoroduCms = true.
Proof.
  assert (Hpub : ScoperWords.objectOrMissing
                   (ScoperWords.operatorDetails "Public" Sample.routeIkoroduCms))
    by (right; eexists; reflexivity).
  assert (Hpriv : ScoperWords.objectOrMissing
                    (ScoperWords.operatorDetails "Private" Sample.routeIkoroduCms))
    by (left; reflexivity).
  split; [exact Hpub|]. split; [exact Hpriv|].
  apply (proj2 (routeMatches_iff ["n1500"] Sample.routeIkoroduCms Hpub Hpriv)).
  right. left. exists "cost_to_final_destination", "N1500", "n1500".
  split; [simpl; tauto|]. split; [simpl; tauto|]. now exists "", "".
Defined.

(** ** Markdown-subset renderer, further *)

Module SubstringFacts.

Import MoreStringFacts.

Lemma substringFrom_add (i n : nat) (s : string) :
  substringFrom (i + n) s = substringFrom n (substringFrom i s).
Proof.
  revert s. induction i as [|i IH]; intros s; [reflexivity|].
  destruct s as [|c r]; simpl; [now destruct n | apply IH].
Qed.

Lemma substringFrom_app (a b : string) : substringFrom (String.length a) (a ++ b) = b.
Proof. induction a as [|c a IH]; simpl; [reflexivity | exact IH]. Qed.

Lemma substring_from (i n : nat) (s : string) :
  String.substring i n s = String.substring 0 n (substringFrom i s).
Proof.
  revert s. induction i as [|i IH]; intros s; [reflexivity|].
  destruct s as [|c r]; simpl; [now destruct n | apply IH].
Qed.

Lemma substring_app (a b : string) : String.substring 0 (String.length a) (a ++ b) = a.
Proof.
  induction a as [|c a IH]; simpl; [now destruct b | now rewrite IH].
Qed.

Lemma substringFrom_all (s : string) : substringFrom (String.length s) s = "".
Proof. induction s as [|c r IH]; simpl; [reflexivity | exact IH]. Qed.

(** A stretch of the subject that starts at [i] and is [a] followed by
    [b]: [a] is the substring of that length and [b] is what follows. *)
Lemma split_at (i : nat) (s a b : string) :
  substringFrom i s = (a ++ b)%string ->
  JsString.substring i (i + String.length a) s = a
  /\ substringFrom (i + String.length a) s = b.
Proof.
  intros H. unfold JsString.substring. split.
  - replace (i + String.length a - i) with (String.length a) by lia.
    rewrite substring_from, H. apply substring_app.
  - rewrite substringFrom_add, H. apply substringFrom_app.
Qed.

End SubstringFacts.

Module RenderFacts.

Import Markdown MarkdownSource MarkdownFacts MoreStringFacts SubstringFacts.

Lemma sourceOfAll_app (l1 l2 : list TextSegment) :
  sourceOfAll (l1 ++ l2) = (sourceOfAll l1 ++ sourceOfAll l2)%string.
Proof.
  induction l1 as [|seg l1 IH]; simpl; [reflexivity|]. now rewrite IH, append_assoc.
Qed.

Lemma sourceOfAll_push (l : list TextSegment) (seg : TextSegment) :
  sourceOfAll (l ++ [seg]) = (sourceOfAll l ++ sourceOf seg)%string.
Proof. rewrite sourceOfAll_app. simpl. now rewrite append_empty_r. Qed.

Lemma spanUntil_app (stop : ascii) (s : string) :
  s = (fst (spanUntil stop s) ++ snd (spanUntil stop s))%string.
Proof.
  induction s as [|c r IH]; simpl; [reflexivity|].
  destruct (Ascii.eqb c stop); simpl; [reflexivity|].
  destruct (spanUntil stop r) as [run rest]. simpl in *. now rewrite <- IH.
Qed.

Lemma spanUntil_clean (stop : ascii) (s : string) :
  hasChar stop (fst (spanUntil stop s)) = false.
Proof.
  induction s as [|c r IH]; simpl; [reflexivity|].
  destruct (Ascii.eqb c stop) eqn:E; simpl; [reflexivity|].
  destruct (spanUntil stop r) as [run rest]. simpl in *. now rewrite E, IH.
Qed.

(** What a match of the link pattern is: the subject opens with the
    marked-up link, whose label and target are not empty and are free of
    the closing character. *)
Lemma matchLinkAt_source (s : string) (m : MatchResult) :
  matchLinkAt s = Some m ->
  (exists tail, s = (sourceOf (linkSegment m) ++ tail)%string)
  /\ String.length (sourceOf (linkSegment m)) = matchLength m
  /\ wellFormed (linkSegment m).
Proof.
  unfold matchLinkAt. intros H.
  destruct s as [|c r]; [discriminate|].
  destruct (Ascii.eqb_spec c "["); [subst c | now other_char c H].
  pose proof (spanUntil_app "]" r) as A1. pose proof (spanUntil_clean "]" r) as C1.
  destruct (spanUntil "]" r) as [label r1]. simpl in A1, C1.
  destruct label as [|l0 label]; [discriminate|].
  destruct r1 as [|c1 r1]; [discriminate|].
  destruct (Ascii.eqb_spec c1 "]"); [subst c1 | now other_char c1 H].
  destruct r1 as [|c2 r2]; [discriminate|].
  destruct (Ascii.eqb_spec c2 "("); [subst c2 | now other_char c2 H].
  pose proof (spanUntil_app ")" r2) as A2. pose proof (spanUntil_clean ")" r2) as C2.
  destruct (spanUntil ")" r2) as [target r3]. simpl in A2, C2.
  destruct target as [|t0 target]; [discriminate|].
  destruct r3 as [|c3 r3]; [discriminate|].
  destruct (Ascii.eqb_spec c3 ")"); [subst c3 | now other_char c3 H].
  injection H as <-. subst r r2.
  unfold sourceOf, linkSegment, wellFormed. cbn [type content url group1 group2].
  split; [|split].
  - exists r3. cbn [append]. f_equal. f_equal.
    rewrite !append_assoc. cbn [append]. f_equal. f_equal. f_equal. f_equal.
    rewrite !append_assoc. reflexivity.
  - cbn [append String.length]. rewrite !append_length. cbn [String.length].
    rewrite !append_length. cbn [String.length matchLength]. lia.
  - split; [discriminate|]. split; [exact C1|].
    eexists. split; [reflexivity|]. split; [discriminate | exact C2].
Qed.

Lemma matchBoldAt_source (s : string) (m : MatchResult) :
  matchBoldAt s = Some m ->
  (exists tail, s = (sourceOf (boldSegment m) ++ tail)%string)
  /\ String.length (sourceOf (boldSegment m)) = matchLength m
  /\ wellFormed (boldSegment m).
Proof.
  unfold matchBoldAt. intros H.
  destruct s as [|c r]; [discriminate|].
  destruct (Ascii.eqb_spec c "*"); [subst c | now other_char c H].
  destruct r as [|c0 r]; [discriminate|].
  destruct (Ascii.eqb_spec c0 "*"); [subst c0 | now other_char c0 H].
  pose proof (spanUntil_app "*" r) as A1. pose proof (spanUntil_clean "*" r) as C1.
  destruct (spanUntil "*" r) as [inner r1]. simpl in A1, C1.
  destruct inner as [|i0 inner]; [discriminate|].
  destruct r1 as [|c1 r1]; [discriminate|].
  destruct (Ascii.eqb_spec c1 "*"); [subst c1 | now other_char c1 H].
  destruct r1 as [|c2 r2]; [discriminate|].
  destruct (Ascii.eqb_spec c2 "*"); [subst c2 | now other_char c2 H].
  injection H as <-. subst r.
  unfold sourceOf, boldSegment, wellFormed. cbn [type content url group1 group2].
  split; [|split].
  - exists r2. cbn [append]. f_equal. f_equal. f_equal.
    rewrite !append_assoc. reflexivity.
  - cbn [append String.length]. rewrite !append_length. cbn [String.length matchLength].
    lia.
  - split; [discriminate|]. split; [exact C1 | reflexivity].
Qed.

End RenderFacts.

Module ParseFacts.

Import Markdown MarkdownSource MarkdownFacts MoreStringFacts SubstringFacts RenderFacts.

Section Pass.

Variable matchAt : string -> option MatchResult.
Variable segmentOf : MatchResult -> TextSegment.

Hypothesis match_source :
  forall s m, matchAt s = Some m ->
    (exists tail, s = (sourceOf (segmentOf m) ++ tail)%string)
    /\ String.length (sourceOf (segmentOf m)) = matchLength m
    /\ wellFormed (segmentOf m).

Hypothesis segment_not_text : forall m, type (segmentOf m) <> text.

Lemma searchFrom_found (suffix : string) :
  forall pos index m,
    searchFrom matchAt pos suffix = Some (index, m) ->
    exists skipped rest,
      suffix = (skipped ++ rest)%string
      /\ index = pos + String.length skipped
      /\ matchAt rest = Some m.
Proof.
  induction suffix as [|c r IH]; intros pos index m; simpl.
  - destruct (matchAt "") as [m'|] eqn:E; [|discriminate].
    intros H. injection H as <- <-. exists "", "". simpl. auto.
  - destruct (matchAt (String c r)) as [m'|] eqn:E.
    + intros H. injection H as <- <-. exists "", (String c r). simpl. auto.
    + intros H. apply IH in H as [skipped [rest [-> [-> Hm]]]].
      exists (String c skipped), rest. simpl. split; [reflexivity|]. split; [lia | exact Hm].
Qed.

Lemma segmentOf_ok (s : string) (m : MatchResult) :
  matchAt s = Some m -> wellFormedOrText (segmentOf m).
Proof.
  intros H. destruct (match_source s m H) as [_ [_ Hwf]].
  unfold wellFormedOrText. pose proof (segment_not_text m) as Hn.
  destruct (type (segmentOf m)) eqn:E; [contradiction | | ];
    unfold wellFormed in *; now rewrite E in *.
Qed.

(** The scan of one text: the segments pushed spell out, in order, what
    lies between [lastIndex] and the end of the subject. *)
Lemma scanLoop_source (subject : string) (fuel : nat) :
  forall lastIndex acc out,
    lastIndex <= String.length subject ->
    scanLoop matchAt segmentOf fuel subject lastIndex acc = Some out ->
    sourceOfAll out = (sourceOfAll acc ++ substringFrom lastIndex subject)%string
    /\ (Forall wellFormedOrText acc -> Forall wellFormedOrText out).
Proof.
  induction fuel as [|fuel IH]; intros lastIndex acc out Hle; simpl; [discriminate|].
  unfold exec. destruct (Nat.ltb_spec (String.length subject) lastIndex) as [Hlt|_]; [lia|].
  destruct (searchFrom matchAt lastIndex (substringFrom lastIndex subject))
    as [[index m]|] eqn:E.
  - apply searchFrom_found in E as [skipped [rest [Hsplit [Hindex Hm]]]].
    pose proof (segmentOf_ok rest m Hm) as Hok.
    destruct (match_source rest m Hm) as [[tail Hrest] [Hlen _]].
    destruct (split_at lastIndex subject skipped rest Hsplit) as [Hskipped Hfrom].
    rewrite <- Hindex in Hskipped, Hfrom. rewrite Hrest in Hfrom.
    destruct (split_at index subject _ tail Hfrom) as [_ Htail].
    rewrite Hlen in Htail.
    pose proof (MarkdownFacts.substringFrom_length lastIndex subject) as L1.
    pose proof (MarkdownFacts.substringFrom_length index subject) as L2.
    rewrite Hsplit, append_length in L1. rewrite Hfrom, append_length, Hlen in L2.
    intros Hloop. apply IH in Hloop; [|lia]. destruct Hloop as [Hsrc Hall].
    rewrite Htail in Hsrc.
    assert (Hpushed :
      sourceOfAll
        (if lastIndex <? index
         then acc ++ [mkSegment text (JsString.substring lastIndex index subject) None]
         else acc)
      = (sourceOfAll acc ++ skipped)%string).
    { destruct (Nat.ltb_spec lastIndex index) as [H|H].
      - rewrite sourceOfAll_push. unfold sourceOf. simpl. now rewrite Hskipped.
      - destruct skipped; [now rewrite append_empty_r | simpl in Hindex; lia]. }
    split.
    + rewrite Hsrc, sourceOfAll_push, Hpushed, Hsplit, Hrest, !append_assoc. reflexivity.
    + intros Hacc. apply Hall. apply Forall_app. split; [|now repeat constructor].
      destruct (lastIndex <? index); [|assumption].
      apply Forall_app. split; [assumption|]. repeat constructor.
  - intros H. injection H as <-.
    destruct (Nat.ltb_spec lastIndex (String.length subject)) as [H|H].
    + split; [now rewrite sourceOfAll_push|].
      intros Hacc. apply Forall_app. split; [assumption|]. repeat constructor.
    + replace lastIndex with (String.length subject) by lia.
      rewrite substringFrom_all, append_empty_r. auto.
Qed.

Lemma pass_source (segments : list TextSegment) :
  forall acc out,
    pass matchAt segmentOf segments acc = Some out ->
    sourceOfAll out = (sourceOfAll acc ++ sourceOfAll segments)%string
    /\ (Forall wellFormedOrText acc -> Forall wellFormedOrText segments ->
        Forall wellFormedOrText out).
Proof.
  induction segments as [|seg rest IH]; intros acc out; cbn [pass].
  - intros H. injection H as <-. simpl. rewrite append_empty_r. auto.
  - destruct (type seg) eqn:Et.
    + destruct (scanLoop matchAt segmentOf (S (String.length (content seg)))
                  (content seg) 0 acc) as [pushed|] eqn:Es; [|discriminate].
      apply scanLoop_source in Es as [Hsrc Hall]; [|lia].
      intros H. apply IH in H as [Hout Hok]. split.
      * rewrite Hout, Hsrc. cbn [sourceOfAll substringFrom]. unfold sourceOf.
        rewrite Et. now rewrite append_assoc.
      * intros Hacc Hsegs. inversion Hsegs; subst. auto.
    + intros H. apply IH in H as [Hout Hok]. split.
      * rewrite Hout, sourceOfAll_push. cbn [sourceOfAll]. now rewrite append_assoc.
      * intros Hacc Hsegs. inversion Hsegs; subst. apply Hok; [|assumption].
        apply Forall_app. split; [assumption | now repeat constructor].
    + intros H. apply IH in H as [Hout Hok]. split.
      * rewrite Hout, sourceOfAll_push. cbn [sourceOfAll]. now rewrite append_assoc.
      * intros Hacc Hsegs. inversion Hsegs; subst. apply Hok; [|assumption].
        apply Forall_app. split; [assumption | now repeat constructor].
Qed.

End Pass.

(** The two passes together, before the filter. *)
Lemma passes_source (input : string) :
  exists segments,
    parseMarkdown input = Some (filter keptSegment segments)
    /\ sourceOfAll segments = input
    /\ Forall wellFormedOrText segments.
Proof.
  unfold parseMarkdown.
  destruct (pass_returns matchLinkAt linkSegment matchLinkAt_bounds
              [mkSegment text input None] []) as [links Hlinks].
  destruct (pass_returns matchBoldAt boldSegment matchBoldAt_bounds links [])
    as [bolds Hbolds].
  rewrite Hlinks, Hbolds. exists bolds. split; [reflexivity|].
  apply (pass_source matchLinkAt linkSegment matchLinkAt_source) in Hlinks;
    [|intros m; discriminate].
  apply (pass_source matchBoldAt boldSegment matchBoldAt_source) in Hbolds;
    [|intros m; discriminate].
  destruct Hlinks as [Sl Wl]. destruct Hbolds as [Sb Wb].
  cbn [sourceOfAll append] in Sl, Sb. unfold sourceOf in Sl. cbn [type content] in Sl.
  rewrite append_empty_r in Sl. split; [congruence|].
  apply Wb; [constructor|]. apply Wl; [constructor|]. repeat constructor.
Qed.

End ParseFacts.



Module PlainTextFacts.

Import Markdown MarkdownSource.

Lemma searchFrom_none (matchAt : string -> option MatchResult) (opener : ascii) :
  (forall s m, matchAt s = Some m -> exists r, s = String opener r) ->
  forall suffix pos, hasChar opener suffix = false -> searchFrom matchAt pos suffix = None.
Proof.
  intros Hopen. induction suffix as [|c r IH]; intros pos Hno; simpl.
  - destruct (matchAt "") as [m|] eqn:E; [|reflexivity].
    apply Hopen in E as [r' E]. discriminate.
  - simpl in Hno. apply orb_false_iff in Hno as [Hc Hr].
    destruct (matchAt (String c r)) as [m|] eqn:E.
    + apply Hopen in E as [r' E]. injection E as -> _.
      rewrite Ascii.eqb_refl in Hc. discriminate.
    + now apply IH.
Qed.

Lemma matchLinkAt_opener (s : string) (m : MatchResult) :
  matchLinkAt s = Some m -> exists r, s = String "[" r.
Proof.
  unfold matchLinkAt. intros H. destruct s as [|c r]; [discriminate|].
  destruct (Ascii.eqb_spec c "["); [subst c; eauto | now MarkdownFacts.other_char c H].
Qed.

Lemma matchBoldAt_opener (s : string) (m : MatchResult) :
  matchBoldAt s = Some m -> exists r, s = String "*" r.
Proof.
  unfold matchBoldAt. intros H. destruct s as [|c r]; [discriminate|].
  destruct (Ascii.eqb_spec c "*"); [subst c; eauto | now MarkdownFacts.other_char c H].
Qed.

(** A pass over one text segment without the opening character of the
    pattern leaves it as it is, or drops it when it is empty. *)
Lemma pass_plain (matchAt : string -> option MatchResult)
    (segmentOf : MatchResult -> TextSegment) (opener : ascii) (input : string) :
  (forall s m, matchAt s = Some m -> exists r, s = String opener r) ->
  hasChar opener input = false ->
  pass matchAt segmentOf [mkSegment text input None] []
  = Some (if 0 <? String.length input then [mkSegment text input None] else []).
Proof.
  intros Hopen Hno. cbn [pass type content scanLoop]. unfold exec.
  cbn [Nat.ltb Nat.leb substringFrom].
  now rewrite (searchFrom_none matchAt opener Hopen input 0 Hno).
Qed.

End PlainTextFacts.



(** ** Assistant orchestrator, further *)

Module SendFacts.

Import Chat ChatWords.

Lemma accepted_not_refused (st : ChatState) (data : FerryData) :
  accepted st data -> sendRefused st = false.
Proof.
  intros [Hinput [Hloading Hdata]]. unfold sendRefused.
  rewrite Hloading, Hdata. apply String.eqb_neq in Hinput. now rewrite Hinput.
Qed.

Lemma refused_iff (st : ChatState) :
  sendRefused st = true <->
  trim (inputText st) = "" \/ loading st = true \/ ferryData st = None.
Proof.
  unfold sendRefused. rewrite !orb_true_iff, String.eqb_eq.
  destruct (ferryData st); intuition discriminate.
Qed.

Lemma settle_spec (outcome : Completion Message) (now : Z) (st : ChatState) :
  settle outcome now st =
  {| messages := messages st ++ [entryOf outcome now]; inputText := inputText st;
     loading := false; ferryData := ferryData st; userLocation := userLocation st;
     locationPermissionGranted := locationPermissionGranted st |}.
Proof. destruct outcome; reflexivity. Qed.

Lemma failureMessage_spec (clock : Clock) (errorText : string) :
  failureMessage errorText (atReply clock)
  = assistantEntry clock
      (sorry (if String.eqb errorText "" then "Unknown error." else errorText)).
Proof. reflexivity. Qed.

(** The transcript after the user's entry and the outcome's entry. *)
Lemma settled_messages (outcome : Completion Message) (clock : Clock) (st : ChatState) :
  messages (settle outcome (atReply clock) (afterUserEntry clock st))
  = messages st ++ [userMessage st (atSend clock); entryOf outcome (atReply clock)].
Proof. rewrite settle_spec. cbn. now rewrite <- app_assoc. Qed.

Ltac next_char s :=
  let c := fresh "c" in
  destruct s as [|c s]; [reflexivity|];
  destruct c as [[] [] [] [] [] [] [] []]; try reflexivity.

(** The test [finishReason === "SAFETY"] on a string. *)
Lemma safety_case {A : Type} (s : string) (a b : A) :
  (match s with
   | "SAFETY"%string => a
   | _ => b
   end) = if String.eqb s "SAFETY" then a else b.
Proof.
  next_char s. next_char s. next_char s. next_char s. next_char s. next_char s.
  destruct s; reflexivity.
Qed.

Lemma finishReason_case {A : Type} (v : JValue) (a b : A) :
  (match v with
   | JStr "SAFETY" => a
   | _ => b
   end) =
  match v with
  | JStr s => if String.eqb s "SAFETY" then a else b
  | _ => b
  end.
Proof. destruct v; try reflexivity. apply safety_case. Qed.

Section Service.

Variable Number_toString : float -> string.
Variable TypeError_message : string.

(** [handleResponse] with its cases spelled out. *)
Lemma handleResponse_cases (data : JValue) (now : Z) :
  handleResponse Number_toString TypeError_message data now =
  if nullish data then Throw TypeError_message
  else if truthy (get data "error") then
    Throw ("Gemini API Error: "
           ++ ToString Number_toString
                (orElse (get (get data "error") "message")
                   (JStr "An unknown API error occurred.")))
  else if truthy (aiResponseTextOf data) then
    Normal {| id := IdOfNumber (now + 1); text := aiResponseTextOf data; isUser := false;
              timestamp := now; isSystemMessage := None |}
  else
    match finishReasonOf data with
    | JStr s =>
        if String.eqb s "SAFETY"
        then Throw "AI response was blocked due to safety settings."
        else Throw ("Invalid or incomplete response from AI. Finish Reason: "
                    ++ ToString Number_toString (orElse (JStr s) (JStr "Unknown")) ++ ".")
    | other =>
        Throw ("Invalid or incomplete response from AI. Finish Reason: "
               ++ ToString Number_toString (orElse other (JStr "Unknown")) ++ ".")
    end.
Proof.
  unfold handleResponse, aiResponseTextOf, finishReasonOf.
  rewrite finishReason_case.
  destruct (nullish data); [reflexivity|].
  destruct (truthy (get data "error")); [reflexivity|].
  destruct (truthy _); [reflexivity|].
  destruct (optGet (optFirst (get data "candidates")) "finishReason"); reflexivity.
Qed.

(** Whatever the body, the entry is one the assistant writes at the
    reply time. *)
Lemma entryOf_assistant (data : JValue) (now : Z) :
  exists body,
    entryOf (handleResponse Number_toString TypeError_message data now) now =
    {| id := IdOfNumber (now + 1); text := body; isUser := false;
       timestamp := now; isSystemMessage := None |}.
Proof.
  rewrite handleResponse_cases.
  destruct (nullish data); [eexists; reflexivity|].
  destruct (truthy (get data "error")); [eexists; reflexivity|].
  destruct (truthy (aiResponseTextOf data)); [eexists; reflexivity|].
  destruct (finishReasonOf data) as [| | | |s| |]; try (eexists; reflexivity).
  destruct (String.eqb s "SAFETY"); eexists; reflexivity.
Qed.

End Service.

End SendFacts.

Module BaselineSendFacts.

Import Chat ChatWords SendFacts.

Section Service.

Variable Number_toString : float -> string.
Variable TypeError_message : string.
Variable generationService : Prompt -> Completion JValue.
Variable specificTerms : list string.
Variable MAX_ITEMS : Z.

(** An accepted send of the baseline component, step by step. *)
Lemma baseline_send (clock : Clock) (st : ChatState) (data : FerryData) :
  accepted st data ->
  sendMessage_baseline Number_toString TypeError_message generationService
    specificTerms MAX_ITEMS clock st
  = settle
      (match generationService (keywordPrompt specificTerms MAX_ITEMS (inputText st) data) with
       | Normal body => handleResponse Number_toString TypeError_message body (atReply clock)
       | Throw e => Throw e
       end)
      (atReply clock) (afterUserEntry clock st).
Proof.
  intros Hacc. unfold sendMessage_baseline.
  rewrite (accepted_not_refused st data Hacc).
  destruct Hacc as [_ [_ ->]]. reflexivity.
Qed.

Lemma baseline_refused (clock : Clock) (st : ChatState) :
  sendRefused st = true ->
  sendMessage_baseline Number_toString TypeError_message generationService
    specificTerms MAX_ITEMS clock st = st.
Proof. intros H. unfold sendMessage_baseline. now rewrite H. Qed.

End Service.

End BaselineSendFacts.

Module LocationSendFacts.

Import Chat ChatWords SendFacts.

Section Service.

Variable Math_sin : float -> float.
Variable Math_cos : float -> float.
Variable Math_atan2 : float -> float -> float.
Variable Number_toString : float -> string.
Variable TypeError_message : string.
Variable generationService : Prompt -> Completion JValue.
Variable specificTerms : list string.
Variable MAX_ITEMS : Z.

Lemma location_refused (clock : Clock) (position : LocationOutcome) (st : ChatState) :
  sendRefused st = true ->
  sendMessage_location Math_sin Math_cos Math_atan2 Number_toString TypeError_message
    generationService specificTerms MAX_ITEMS clock position st = st.
Proof. intros H. unfold sendMessage_location. now rewrite H. Qed.

(** A question that is no proximity query is handled as the baseline
    component handles it. *)
Lemma location_keyword_path (clock : Clock) (position : LocationOutcome)
    (st : ChatState) :
  Classifier.isNearestJettyQuery (inputText st) = false ->
  sendMessage_location Math_sin Math_cos Math_atan2 Number_toString TypeError_message
    generationService specificTerms MAX_ITEMS clock position st
  = sendMessage_baseline Number_toString TypeError_message generationService
      specificTerms MAX_ITEMS clock st.
Proof.
  intros Hq. unfold sendMessage_location, sendMessage_baseline. rewrite Hq.
  destruct (sendRefused st); [reflexivity|].
  destruct (ferryData st); reflexivity.
Qed.

End Service.

End LocationSendFacts.



(** X18.  An accepted send of the baseline component appends exactly two
    entries, the user's and then one written by the assistant, whatever
    the service answers or throws; the earlier entries are untouched, the
    input is cleared, the loading flag is false and the dataset is as it
    was. *)
Theorem sendMessage_baseline_appends_two :
  forall (Number_toString : float -> string) (TypeError_message : string)
         (generationService : Chat.Prompt -> Chat.Completion JValue)
         (clock : Chat.Clock) (st : Chat.ChatState) (data : FerryData),
    ChatWords.accepted st data ->
    let st' :=
      Baseline.sendMessage Number_toString TypeError_message generationService clock st in
    (exists body,
       Chat.messages st' =
       Chat.messages st
         ++ [Chat.userMessage st (Chat.atSend clock); ChatWords.assistantEntry clock body])
    /\ Chat.inputText st' = ""
    /\ Chat.loading st' = false
    /\ Chat.ferryData st' = Some data.
Proof.
  intros Number_toString TypeError_message generationService clock st data Hacc st'.
  subst st'. unfold Baseline.sendMessage.
  rewrite (BaselineSendFacts.baseline_send _ _ _ _ _ clock st data Hacc).
  rewrite SendFacts.settle_spec. cbn [Chat.messages Chat.inputText Chat.loading
    Chat.ferryData ChatWords.afterUserEntry Chat.setLoading Chat.setInputText
    Chat.setMessages].
  destruct Hacc as [_ [_ Hdata]].
  split; [|now repeat split].
  rewrite <- app_assoc. cbn [app].
  destruct (generationService _) as [body|e].
  - destruct (SendFacts.entryOf_assistant Number_toString TypeError_message body
                (Chat.atReply clock)) as [b Hb].
    exists b. now rewrite Hb.
  - eexists. reflexivity.
Qed.

Lemma sendMessage_baseline_appends_two_witness :
  let st := ChatSample.sampleState "What's the fare to CMS?" in
  ChatWords.accepted st Sample.ferryData
  /\ Chat.loading
       (Baseline.sendMessage ChatSample.numberToString ""
          (ChatSample.failing "Network request failed") ChatSample.sampleClock st) = false.
Proof.
  intros st.
  assert (H : ChatWords.accepted st Sample.ferryData).
  { repeat split. vm_compute. discriminate. }
  split; [exact H|].
  exact (proj1 (proj2 (proj2
           (sendMessage_baseline_appends_two ChatSample.numberToString ""
              (ChatSample.failing "Network request failed") ChatSample.sampleClock st
              Sample.ferryData H)))).
Defined.

Module PromptFacts.

Import Chat ChatWords.

(** The scoped data of the keyword path has at most [cap] jetties and
    [cap] routes, for a cap of three or more. *)
Lemma keywordPrompt_bounded (specificTerms : list string) (MAX_ITEMS : Z)
    (input : string) (data : FerryData) (cap : nat) :
  (3 <= MAX_ITEMS)%Z -> Z.to_nat MAX_ITEMS <= cap ->
  let p := keywordPrompt specificTerms MAX_ITEMS input data in
  question p = input /\ jettyCount p <= cap /\ routeCount p <= cap.
Proof.
  intros H3 Hcap p. subst p. unfold keywordPrompt, jettyCount, routeCount.
  cbn [contextData question]. split; [reflexivity|].
  unfold Scoper.filterDataByKeywords.
  destruct (List.length (Keywords.getKeywords specificTerms input) =? 0);
    cbn [Scoper.filtered jetties routes]; rewrite !slice0_length by lia; lia.
Qed.

End PromptFacts.

(** X19.  The service is asked one prompt at most, whose question is the
    input as typed and whose scoped data holds at most 15 jetties and 15
    routes in the baseline component and at most 8 of each in the
    location-aware one: two services that agree on such prompts give the
    same send. *)
Theorem sendMessage_prompt_is_bounded :
  forall (Math_sin Math_cos : float -> float) (Math_atan2 : float -> float -> float)
         (Number_toString : float -> string) (TypeError_message : string)
         (service service' : Chat.Prompt -> Chat.Completion JValue)
         (clock : Chat.Clock) (position : Chat.LocationOutcome) (st : Chat.ChatState),
    ((forall p, Chat.question p = Chat.inputText st ->
                ChatWords.jettyCount p <= 15 -> ChatWords.routeCount p <= 15 ->
                service p = service' p) ->
     Baseline.sendMessage Number_toString TypeError_message service clock st
     = Baseline.sendMessage Number_toString TypeError_message service' clock st)
    /\ ((forall p, Chat.question p = Chat.inputText st ->
                   ChatWords.jettyCount p <= 8 -> ChatWords.routeCount p <= 8 ->
                   service p = service' p) ->
        LocationAware.sendMessage Math_sin Math_cos Math_atan2 Number_toString
          TypeError_message service clock position st
        = LocationAware.sendMessage Math_sin Math_cos Math_atan2 Number_toString
            TypeError_message service' clock position st).
Proof.
  intros Math_sin Math_cos Math_atan2 Number_toString TypeError_message
    service service' clock position st.
  split; intros Hagree.
  - unfold Baseline.sendMessage, Chat.sendMessage_baseline.
    destruct (Chat.sendRefused st); [reflexivity|].
    destruct (Chat.ferryData st) as [data|]; [|reflexivity].
    destruct (PromptFacts.keywordPrompt_bounded Baseline.specificTerms Baseline.MAX_ITEMS
                (Chat.inputText st) data 15) as [Hq [Hj Hr]];
      [unfold Baseline.MAX_ITEMS; lia | reflexivity |].
    unfold ChatWords.keywordPrompt in Hq, Hj, Hr.
    now rewrite (Hagree _ Hq Hj Hr).
  - unfold LocationAware.sendMessage, Chat.sendMessage_location.
    destruct (Chat.sendRefused st); [reflexivity|].
    destruct (Chat.ferryData st) as [data|] eqn:Hdata; [|reflexivity].
    destruct (Classifier.isNearestJettyQuery (Chat.inputText st)).
    + destruct (Chat.handleNearestJettyQuery Math_sin Math_cos Math_atan2 clock position st _)
        as [st2 [nearest|]] eqn:Hq; [|reflexivity].
      assert (Hlen : List.length nearest <= 8).
      { unfold Chat.handleNearestJettyQuery in Hq.
        repeat match type of Hq with
               | context [if ?b then _ else _] => destruct b
               | context [match ?x with Some _ => _ | None => _ end] => destruct x
               | context [let '(_, _) := ?p in _] => destruct p
               end; try discriminate;
          injection Hq as _ <-; unfold Proximity.findNearestJetties;
          rewrite slice0_length by lia; change (Z.to_nat 5) with 5; lia. }
      rewrite (Hagree {| Chat.contextData := Chat.LocationContext nearest;
                         Chat.question := Chat.inputText st |});
        [reflexivity | reflexivity | exact Hlen | unfold ChatWords.routeCount; simpl; lia].
    + destruct (PromptFacts.keywordPrompt_bounded LocationAware.specificTerms
                  LocationAware.MAX_ITEMS (Chat.inputText st) data 8) as [Hq [Hj Hr]];
        [unfold LocationAware.MAX_ITEMS; lia | reflexivity |].
      unfold ChatWords.keywordPrompt in Hq, Hj, Hr.
      now rewrite (Hagree _ Hq Hj Hr).
Qed.

Lemma sendMessage_prompt_is_bounded_witness :
  let st := ChatSample.sampleState "What's the fare to CMS?" in
  let capped := fun p : Chat.Prompt =>
    if (ChatWords.jettyCount p <=? 15) && (ChatWords.routeCount p <=? 15)
    then Chat.Normal (ChatSample.replyBody "Hello")
    else Chat.Throw "too long" in
  Baseline.sendMessage ChatSample.numberToString ""
    (ChatSample.answering (ChatSample.replyBody "Hello")) ChatSample.sampleClock st
  = Baseline.sendMessage ChatSample.numberToString "" capped ChatSample.sampleClock st.
Proof.
  intros st capped.
  apply (proj1 (sendMessage_prompt_is_bounded Sample.sin Sample.cos Sample.atan2
                  ChatSample.numberToString ""
                  (ChatSample.answering (ChatSample.replyBody "Hello")) capped
                  ChatSample.sampleClock Chat.Refused st)).
  intros p _ Hj Hr. unfold capped, ChatSample.answering.
  apply Nat.leb_le in Hj, Hr. now rewrite Hj, Hr.
Defined.

(** X20.  When the body the service returns for the prompt has no error and
    a non-empty text in its first candidate, the assistant's entry holds
    that text as it is. *)
Theorem sendMessage_reply_is_verbatim :
  forall (Number_toString : float -> string) (TypeError_message : string)
         (generationService : Chat.Prompt -> Chat.Completion JValue)
         (clock : Chat.Clock) (st : Chat.ChatState) (data : FerryData) (body : JValue),
    ChatWords.accepted st data ->
    generationService
      (ChatWords.keywordPrompt Baseline.specificTerms Baseline.MAX_ITEMS
         (Chat.inputText st) data) = Chat.Normal body ->
    nullish body = false ->
    truthy (get body "error") = false ->
    truthy (ChatWords.aiResponseTextOf body) = true ->
    Chat.messages
      (Baseline.sendMessage Number_toString TypeError_message generationService clock st)
    = Chat.messages st
        ++ [Chat.userMessage st (Chat.atSend clock);
            ChatWords.assistantEntry clock (ChatWords.aiResponseTextOf body)].
Proof.
  intros Number_toString TypeError_message generationService clock st data body
    Hacc Hservice Hbody Herror Htext.
  unfold Baseline.sendMessage.
  rewrite (BaselineSendFacts.baseline_send _ _ _ _ _ clock st data Hacc).
  rewrite Hservice, SendFacts.handleResponse_cases, Hbody, Herror, Htext.
  now rewrite SendFacts.settled_messages.
Qed.

Lemma sendMessage_reply_is_verbatim_witness :
  let st := ChatSample.sampleState "What's the fare to CMS?" in
  let body := ChatSample.replyBody "**CMS** costs N1500." in
  ChatWords.accepted st Sample.ferryData
  /\ ChatWords.aiResponseTextOf body = JStr "**CMS** costs N1500."
  /\ Chat.messages
       (Baseline.sendMessage ChatSample.numberToString "" (ChatSample.answering body)
          ChatSample.sampleClock st)
     = Chat.messages st
         ++ [Chat.userMessage st (Chat.atSend ChatSample.sampleClock);
             ChatWords.assistantEntry ChatSample.sampleClock
               (ChatWords.aiResponseTextOf body)].
Proof.
  intros st body.
  assert (H : ChatWords.accepted st Sample.ferryData).
  { repeat split. vm_compute. discriminate. }
  split; [exact H|]. split; [reflexivity|].
  exact (sendMessage_reply_is_verbatim ChatSample.numberToString ""
           (ChatSample.answering body) ChatSample.sampleClock st Sample.ferryData body
           H eq_refl eq_refl eq_refl eq_refl).
Defined.

(** X21.  When the body has no error and no text, the assistant's entry is
    a failure notice: the fixed safety notice when the first candidate's
    finish reason is "SAFETY", and otherwise a notice that quotes the
    finish reason, or "Unknown" when there is none. *)
Theorem sendMessage_reply_without_text :
  forall (Number_toString : float -> string) (TypeError_message : string)
         (generationService : Chat.Prompt -> Chat.Completion JValue)
         (clock : Chat.Clock) (st : Chat.ChatState) (data : FerryData) (body : JValue),
    ChatWords.accepted st data ->
    generationService
      (ChatWords.keywordPrompt Baseline.specificTerms Baseline.MAX_ITEMS
         (Chat.inputText st) data) = Chat.Normal body ->
    nullish body = false ->
    truthy (get body "error") = false ->
    truthy (ChatWords.aiResponseTextOf body) = false ->
    let entry notice :=
      Chat.messages
        (Baseline.sendMessage Number_toString TypeError_message generationService clock st)
      = Chat.messages st
          ++ [Chat.userMessage st (Chat.atSend clock);
              ChatWords.assistantEntry clock (ChatWords.sorry notice)] in
    (ChatWords.finishReasonOf body = JStr "SAFETY" ->
       entry "AI response was blocked due to safety settings.")
    /\ (truthy (ChatWords.finishReasonOf body) = false ->
          entry "Invalid or incomplete response from AI. Finish Reason: Unknown.")
    /\ (forall reason,
          ChatWords.finishReasonOf body = JStr reason ->
          reason <> "" -> reason <> "SAFETY" ->
          entry ("Invalid or incomplete response from AI. Finish Reason: "
                 ++ reason ++ ".")%string).
Proof.
  intros Number_toString TypeError_message generationService clock st data body
    Hacc Hservice Hbody Herror Htext entry.
  assert (Hsend :
    forall notice,
      Chat.handleResponse Number_toString TypeError_message body (Chat.atReply clock)
      = Chat.Throw notice ->
      notice <> "" -> entry notice).
  { intros notice Hthrow Hne. unfold entry, Baseline.sendMessage.
    rewrite (BaselineSendFacts.baseline_send _ _ _ _ _ clock st data Hacc).
    rewrite Hservice, Hthrow, SendFacts.settled_messages.
    cbn [ChatWords.entryOf]. rewrite SendFacts.failureMessage_spec.
    apply String.eqb_neq in Hne. now rewrite Hne. }
  assert (Hcases := SendFacts.handleResponse_cases Number_toString TypeError_message body
                      (Chat.atReply clock)).
  rewrite Hbody, Herror, Htext in Hcases.
  split; [|split].
  - intros Hfr. apply Hsend; [|discriminate]. now rewrite Hcases, Hfr.
  - intros Hfr. apply Hsend; [|discriminate]. rewrite Hcases.
    destruct (ChatWords.finishReasonOf body) as [| | | |s| |];
      try (unfold Chat.orElse; rewrite Hfr; reflexivity).
    cbn [truthy] in Hfr. apply negb_false_iff, String.eqb_eq in Hfr. now subst s.
  - intros reason Hfr Hne Hsafety. apply Hsend.
    + rewrite Hcases, Hfr. apply String.eqb_neq in Hsafety. rewrite Hsafety.
      unfold Chat.orElse. cbn [truthy]. apply String.eqb_neq in Hne. now rewrite Hne.
    + discriminate.
Qed.

Lemma sendMessage_reply_without_text_witness :
  let st := ChatSample.sampleState "What's the fare to CMS?" in
  let body := JObj [("candidates", JArr [JObj [("finishReason", JStr "SAFETY")]])] in
  ChatWords.accepted st Sample.ferryData
  /\ ChatWords.finishReasonOf body = JStr "SAFETY"
  /\ Chat.messages
       (Baseline.sendMessage ChatSample.numberToString "" (ChatSample.answering body)
          ChatSample.sampleClock st)
     = Chat.messages st
         ++ [Chat.userMessage st (Chat.atSend ChatSample.sampleClock);
             ChatWords.assistantEntry ChatSample.sampleClock
               (ChatWords.sorry "AI response was blocked due to safety settings.")].
Proof.
  intros st body.
  assert (H : ChatWords.accepted st Sample.ferryData).
  { repeat split. vm_compute. discriminate. }
  split; [exact H|]. split; [reflexivity|].
  exact (proj1 (sendMessage_reply_without_text ChatSample.numberToString ""
                  (ChatSample.answering body) ChatSample.sampleClock st Sample.ferryData
                  body H eq_refl eq_refl eq_refl eq_refl) eq_refl).
Defined.

(** X22.  When the request itself throws, the error is caught: the
    assistant's entry quotes the error's message, or "Unknown error." when
    the message is empty, and the loading flag is false. *)
Theorem sendMessage_request_failure :
  forall (Number_toString : float -> string) (TypeError_message : string)
         (generationService : Chat.Prompt -> Chat.Completion JValue)
         (clock : Chat.Clock) (st : Chat.ChatState) (data : FerryData) (reason : string),
    ChatWords.accepted st data ->
    generationService
      (ChatWords.keywordPrompt Baseline.specificTerms Baseline.MAX_ITEMS
         (Chat.inputText st) data) = Chat.Throw reason ->
    let st' :=
      Baseline.sendMessage Number_toString TypeError_message generationService clock st in
    Chat.messages st'
    = Chat.messages st
        ++ [Chat.userMessage st (Chat.atSend clock);
            ChatWords.assistantEntry clock
              (ChatWords.sorry (if String.eqb reason "" then "Unknown error." else reason))]
    /\ Chat.loading st' = false.
Proof.
  intros Number_toString TypeError_message generationService clock st data reason
    Hacc Hservice st'. subst st'. unfold Baseline.sendMessage.
  rewrite (BaselineSendFacts.baseline_send _ _ _ _ _ clock st data Hacc).
  rewrite Hservice. split; [|now rewrite SendFacts.settle_spec].
  rewrite SendFacts.settled_messages. cbn [ChatWords.entryOf].
  now rewrite SendFacts.failureMessage_spec.
Qed.

Lemma sendMessage_request_failure_witness :
  let st := ChatSample.sampleState "What's the fare to CMS?" in
  ChatWords.accepted st Sample.ferryData
  /\ Chat.messages
       (Baseline.sendMessage ChatSample.numberToString ""
          (ChatSample.failing "Network request failed") ChatSample.sampleClock st)
     = Chat.messages st
         ++ [Chat.userMessage st (Chat.atSend ChatSample.sampleClock);
             ChatWords.assistantEntry ChatSample.sampleClock
               (ChatWords.sorry "Network request failed")].
Proof.
  intros st.
  assert (H : ChatWords.accepted st Sample.ferryData).
  { repeat split. vm_compute. discriminate. }
  split; [exact H|].
  exact (proj1 (sendMessage_request_failure ChatSample.numberToString ""
                  (ChatSample.failing "Network request failed") ChatSample.sampleClock st
                  Sample.ferryData "Network request failed" H eq_refl)).
Defined.



(** X24.  A proximity query sent while the component holds no user location
    is never answered: the service is not asked, and the transcript gains
    the user's entry and the permission notice, followed by the denial
    notice unless a position was obtained.  The position obtained is
    stored, so a later query can be ranked; this one is not. *)
Theorem sendMessage_first_proximity_query :
  forall (Math_sin Math_cos : float -> float) (Math_atan2 : float -> float -> float)
         (Number_toString : float -> string) (TypeError_message : string)
         (generationService : Chat.Prompt -> Chat.Completion JValue)
         (clock : Chat.Clock) (position : Chat.LocationOutcome)
         (st : Chat.ChatState) (data : FerryData),
    ChatWords.accepted st data ->
    Classifier.isNearestJettyQuery (Chat.inputText st) = true ->
    Chat.userLocation st = None ->
    let st' :=
      LocationAware.sendMessage Math_sin Math_cos Math_atan2 Number_toString
        TypeError_message generationService clock position st in
    (exists notices,
       Chat.messages st'
       = Chat.messages st ++ Chat.userMessage st (Chat.atSend clock) :: notices
       /\ Forall (fun m => Chat.isUser m = false) notices
       /\ List.length notices
          = match position with Chat.GrantedAt _ => 1 | _ => 2 end)
    /\ Chat.userLocation st'
       = match position with Chat.GrantedAt location => Some location | _ => None end
    /\ Chat.loading st' = false
    /\ forall service',
         LocationAware.sendMessage Math_sin Math_cos Math_atan2 Number_toString
           TypeError_message service' clock position st = st'.
Proof.
  intros Math_sin Math_cos Math_atan2 Number_toString TypeError_message
    generationService clock position st data Hacc Hq Hloc st'. subst st'.
  unfold LocationAware.sendMessage, Chat.sendMessage_location.
  rewrite (SendFacts.accepted_not_refused st data Hacc), Hq.
  destruct Hacc as [_ [_ Hdata]]. rewrite Hdata.
  unfold Chat.handleNearestJettyQuery. rewrite Hloc, andb_false_r.
  cbn [negb]. destruct position as [| |location]; cbn; rewrite ?Hdata; cbn.
  - repeat split; try assumption.
    eexists. split; [rewrite <- !app_assoc; reflexivity|]. split; [|reflexivity].
    repeat constructor.
  - repeat split; try assumption.
    eexists. split; [rewrite <- !app_assoc; reflexivity|]. split; [|reflexivity].
    repeat constructor.
  - repeat split.
    eexists. split; [rewrite <- ?app_assoc; reflexivity|]. split; [|reflexivity].
    repeat constructor.
Qed.

Lemma sendMessage_first_proximity_query_witness :
  let st := ChatSample.sampleState "What's the nearest jetty to me?" in
  ChatWords.accepted st Sample.ferryData
  /\ Classifier.isNearestJettyQuery (Chat.inputText st) = true
  /\ Chat.userLocation st = None
  /\ Chat.userLocation
       (LocationAware.sendMessage Sample.sin Sample.cos Sample.atan2
          ChatSample.numberToString "" (ChatSample.answering (ChatSample.replyBody "Hello"))
          ChatSample.sampleClock (Chat.GrantedAt Sample.here) st)
     = Some Sample.here.
Proof.
  intros st.
  assert (H : ChatWords.accepted st Sample.ferryData).
  { repeat split. vm_compute. discriminate. }
  split; [exact H|]. split; [reflexivity|]. split; [reflexivity|].
  exact (proj1 (proj2
           (sendMessage_first_proximity_query Sample.sin Sample.cos Sample.atan2
              ChatSample.numberToString ""
              (ChatSample.answering (ChatSample.replyBody "Hello"))
              ChatSample.sampleClock (Chat.GrantedAt Sample.here) st Sample.ferryData
              H eq_refl eq_refl))).
Defined.



(** X26.  [getQualityBadge] tests "developed" before "less": a quality that
    reads "Less Developed", in any surrounding text, gets the green of a
    developed jetty, and the amber goes only to a quality that contains
    "less" and not "developed", whatever the case of its letters. *)
Theorem getQualityBadge_less_developed_is_green :
  (forall before after : string,
     MapScreen.getQualityBadge (Some (before ++ "Less Developed" ++ after)%string)
     = "#10B981")
  /\ forall quality : option string,
       MapScreen.getQualityBadge quality = "#F59E0B" <->
       exists q, quality = Some q
                 /\ occursIn "less" (toLowerCase q)
                 /\ ~ occursIn "developed" (toLowerCase q).
Proof.
  split.
  - intros before after. unfold MapScreen.getQualityBadge.
    assert (Hin : MapScreen.optIncludes
                    (option_map toLowerCase
                       (Some (before ++ "Less Developed" ++ after)%string))
                    "developed" = true).
    { simpl. apply includes_iff.
      rewrite !KeywordFacts.toLowerCase_app.
      exists (toLowerCase before ++ "less ")%string, (toLowerCase after).
      rewrite MoreStringFacts.append_assoc. reflexivity. }
    now rewrite Hin.
  - intros quality. unfold MapScreen.getQualityBadge. split.
    + destruct quality as [q|]; [|discriminate]. simpl.
      destruct (includes (toLowerCase q) "developed") eqn:Hd; [discriminate|].
      destruct (includes (toLowerCase q) "less") eqn:Hl.
      * intros _. exists q. split; [reflexivity|]. split; [now apply includes_iff|].
        intros H. apply includes_iff in H. congruence.
      * destruct (includes (toLowerCase q) "poor"); discriminate.
    + intros [q [-> [Hl Hd]]]. simpl.
      apply includes_iff in Hl. rewrite Hl.
      destruct (includes (toLowerCase q) "developed") eqn:E; [|reflexivity].
      exfalso. apply Hd. now apply includes_iff.
Qed.
